(** * go-hemera: request/reply over a publish/subscribe transport

    A shallow embedding of [hemera.go].  The file has one Go package with

    - the envelope structs ([packet], [request], [trace], [Error]) and the
      open map [Pattern];
    - the functional options ([GetDefaultOptions], [Timeout], [NewHemera]);
    - the responder [Hemera.Add] with the two closures it creates (the
      subscription callback and the reply callback);
    - the requester [Hemera.Act].

    The code talks to four collaborators that are not part of the package:
    the NATS connection, the [nuid] generator, the standard logger and
    [encoding/json].  The first three are events of a small program monad
    ([prog]) that an environment ([World]) answers; [log.Fatal] ends the
    process.  [encoding/json] is modelled at the level of JSON documents:
    which member goes to which struct field, and what happens to a member of
    the wrong type. *)

From Stdlib Require Import ZArith List String Ascii Bool Lia DecimalString.
From Stdlib Require DecimalPos.
Import ListNotations.

Set Warnings "-register-all".

Local Open Scope string_scope.
Local Open Scope Z_scope.
Local Open Scope list_scope.

(* ================================================================= *)
(** ** Machine integers and durations *)

(** Go's [int64] arithmetic wraps around silently. *)
Definition wrap_int64 (z : Z) : Z := (z + 2 ^ 63) mod 2 ^ 64 - 2 ^ 63.

Definition in_int64 (z : Z) : Prop := - 2 ^ 63 <= z < 2 ^ 63.

Definition in_int64b (z : Z) : bool := (- 2 ^ 63 <=? z) && (z <? 2 ^ 63).
Definition in_int16b (z : Z) : bool := (-32768 <=? z) && (z <=? 32767).

(** [time.Duration] is an [int64] count of nanoseconds. *)
Definition Duration := Z.

Definition time_Nanosecond : Duration := 1.
Definition time_Microsecond : Duration := 1000 * time_Nanosecond.
Definition time_Millisecond : Duration := 1000 * time_Microsecond.
Definition time_Second : Duration := 1000 * time_Millisecond.
Definition time_Minute : Duration := 60 * time_Second.
Definition time_Hour : Duration := 60 * time_Minute.

(** [a * b] on two [time.Duration] values. *)
Definition Duration_mul (a b : Duration) : Duration := wrap_int64 (a * b).

(* ================================================================= *)
(** ** Constants of the package *)

(** RequestType represent the request with default request / reply semantic *)
Definition RequestType : string := "request".
(** PubsubType represent the request with publish / subscribe semantic *)
Definition PubsubType : string := "pubsub".
(** RequestTimeout is the maxiumum act timeout in miliseconds *)
Definition RequestTimeout : Z := 2000.

(* ================================================================= *)
(** ** Go values *)

(** Error is the default error struct.  [Code] is an [int16]. *)
Record Error := mkError {
  Error_Name : string;
  Error_Message : string;
  Error_Code : Z
}.

Definition Error_zero : Error := mkError EmptyString EmptyString 0.

(** What an [interface{}] can hold, by dynamic type.  A map is kept as an
    association list read from the left ([map_get]); a [float64] is kept as
    the decimal literal it was read from, since nothing here computes with
    it. *)
Inductive value : Type :=
| VNil                                        (* the nil interface *)
| VTypedNil (ty : string)                     (* a nil pointer, map or slice of type [ty] *)
| VBool (b : bool)
| VInt (n : Z)                                (* int *)
| VFloat64 (lit : string)                     (* float64 *)
| VString (s : string)
| VSlice (xs : list value)                    (* []interface{} *)
| VMap (m : list (string * value))            (* map[string]interface{} *)
| VError (e : Error)                          (* hemera.Error *)
| VErrorPtr (e : Error)                       (* *hemera.Error, not nil *)
| VStruct (ty : string) (fields : list (string * value))
                                              (* any other struct, by JSON field name *)
| VFunc (ty : string).                        (* func, chan, complex: not serialisable *)

(** Pattern the default struct to represent a pattern:
    [map[string]interface{}]; [None] is the nil map. *)
Definition Pattern := option (list (string * value)).

Definition ClientResult := value.

Fixpoint map_get {A : Type} (k : string) (m : list (string * A)) : option A :=
  match m with
  | [] => None
  | (k', v) :: r => if String.eqb k k' then Some v else map_get k r
  end.

(** Insertion that replaces an existing key and keeps the keys in
    increasing byte order, the order [json.Marshal] writes a map in. *)
Fixpoint map_set {A : Type} (k : string) (v : A) (m : list (string * A))
  : list (string * A) :=
  match m with
  | [] => [(k, v)]
  | (k', v') :: r =>
      if String.eqb k k' then (k, v) :: r
      else if String.ltb k k' then (k, v) :: (k', v') :: r
      else (k', v') :: map_set k v r
  end.

(** Sorted, duplicate-free form of an association list read from the left. *)
Definition map_canon {A : Type} (m : list (string * A)) : list (string * A) :=
  fold_right (fun kv acc => map_set (fst kv) (snd kv) acc) [] m.

(** [p[k]] on a possibly nil map: the zero value [nil] when absent. *)
Definition Pattern_index (p : Pattern) (k : string) : value :=
  match p with
  | None => VNil
  | Some m => match map_get k m with Some v => v | None => VNil end
  end.

(** [v.(string)] in its two-result form. *)
Definition assert_string (v : value) : string * bool :=
  match v with
  | VString s => (s, true)
  | _ => (EmptyString, false)
  end.

(** [v.(Error)] in its two-result form: the dynamic type must be the struct
    type [Error] itself. *)
Definition assert_Error (v : value) : Error * bool :=
  match v with
  | VError e => (e, true)
  | _ => (Error_zero, false)
  end.

(* ================================================================= *)
(** ** Errors *)

Inductive error : Type :=
| ErrAddTopicRequired                         (* errors.New("Topic is required") *)
| ErrActTopicRequired                         (* errors.New("Topic is required") *)
| ErrNats (what : string)                     (* an error value of package nats *)
| SyntaxError                                 (* *json.SyntaxError *)
| UnmarshalTypeError (val : string)           (* *json.UnmarshalTypeError, its Value *)
| UnsupportedTypeError (ty : string)          (* *json.UnsupportedTypeError *)
| ErrOption (what : string).                  (* an error returned by a caller's Option *)

Definition error_message (e : error) : string :=
  match e with
  | ErrAddTopicRequired | ErrActTopicRequired => "Topic is required"
  | ErrNats what => what
  | SyntaxError => "invalid character"
  | UnmarshalTypeError val => String.append "json: cannot unmarshal " val
  | UnsupportedTypeError ty => String.append "json: unsupported type: " ty
  | ErrOption what => what
  end.

Definition nats_ErrTimeout : error := ErrNats "nats: timeout".
Definition nats_ErrConnectionClosed : error := ErrNats "nats: connection closed".

(* ================================================================= *)
(** ** The envelope *)

Record request := mkrequest {
  request_ID : string;                        (* json:"id" *)
  request_RequestType : string                (* json:"type" *)
}.

Record trace := mktrace {
  trace_TraceID : string;                     (* json:"traceId" *)
  trace_ParentSpanID : string;                (* json:"parentSpanId" *)
  trace_SpanID : string;                      (* json:"spanId" *)
  trace_Timestamp : Z;                        (* json:"timestamp", int64 *)
  trace_Service : string;                     (* json:"service" *)
  trace_Method : string;                      (* json:"method" *)
  trace_Duration : Z                          (* json:"duration", int64 *)
}.

Record packet := mkpacket {
  packet_Pattern : Pattern;                               (* json:"pattern" *)
  packet_Meta : option (list (string * value));           (* json:"meta" *)
  packet_Delegate : option (list (string * value));       (* json:"delegate" *)
  packet_Result : value;                                  (* json:"result" *)
  packet_Trace : trace;                                   (* json:"trace" *)
  packet_Request : request;                               (* json:"request" *)
  packet_Error : option Error                             (* json:"error", *Error *)
}.

Definition request_zero : request := mkrequest EmptyString EmptyString.
Definition trace_zero : trace := mktrace EmptyString EmptyString EmptyString 0 EmptyString EmptyString 0.

(** [packet{}] *)
Definition packet_zero : packet :=
  mkpacket None None None VNil trace_zero request_zero None.

(* ================================================================= *)
(** ** JSON documents and byte slices *)

(** A JSON document: members of an object in the order written, duplicates
    kept; a number as its literal; a string after unquoting. *)
Inductive json : Type :=
| JNull
| JBool (b : bool)
| JNumber (lit : string)
| JString (s : string)
| JArray (xs : list json)
| JObject (ms : list (string * json)).

(** A byte slice handed to or received from the transport.  [encoding/json]
    first checks the bytes for well-formedness and only then decodes, so a
    slice is kept as the document a well-formed text denotes, or as the raw
    bytes of a text that is not well-formed JSON (the nil and the empty slice
    are of this kind). *)
Inductive bytes : Type :=
| JSONText (doc : json)
| RawBytes (raw : string).

Definition nil_bytes : bytes := RawBytes EmptyString.

(* ================================================================= *)
(** ** encoding/json, decoding *)

(** The Unmarshal documentation: "If a JSON value is not appropriate for a
    given target type, or if a JSON number overflows the target type,
    Unmarshal skips that field and completes the unmarshaling as best it can.
    [...] Unmarshal returns an UnmarshalTypeError describing the earliest such
    error."  An ill-formed text is refused before anything is stored. *)

Definition first_error (a b : option error) : option error :=
  match a with
  | Some _ => a
  | None => b
  end.

Definition json_kind (j : json) : string :=
  match j with
  | JNull => "null"
  | JBool _ => "bool"
  | JNumber _ => "number"
  | JString _ => "string"
  | JArray _ => "array"
  | JObject _ => "object"
  end.

Definition is_digit (c : ascii) : bool :=
  let n := N_of_ascii c in (48 <=? n)%N && (n <=? 57)%N.

Fixpoint span_digits (s : string) : string * string :=
  match s with
  | String c r =>
      if is_digit c then let (d, rest) := span_digits r in (String c d, rest)
      else (EmptyString, s)
  | EmptyString => (EmptyString, EmptyString)
  end.

Definition digits_value (d : string) : Z :=
  match NilZero.uint_of_string d with
  | Some u => Z.of_uint u
  | None => 0
  end.

(** [strconv.ParseInt(lit, 10, 64)] without the range check: an optional
    minus sign and decimal digits, nothing else. *)
Definition int_literal (lit : string) : option Z :=
  match lit with
  | String "-" r =>
      match span_digits r with
      | (String c d, EmptyString) => Some (- digits_value (String c d))
      | _ => None
      end
  | _ =>
      match span_digits lit with
      | (String c d, EmptyString) => Some (digits_value (String c d))
      | _ => None
      end
  end.

(** The parts of a number literal: digits before and after the point, and
    the decimal exponent. *)
Definition number_parts (lit : string) : option (string * string * Z) :=
  let body := match lit with String "-" r => r | _ => lit end in
  let (ip, r1) := span_digits body in
  let (fp, r2) :=
    match r1 with
    | String "." r => span_digits r
    | _ => (EmptyString, r1)
    end in
  match r2 with
  | EmptyString => Some (ip, fp, 0)
  | String c r =>
      if (Ascii.eqb c "e" || Ascii.eqb c "E")%bool then
        match r with
        | String "+" e => option_map (fun x => (ip, fp, x)) (int_literal e)
        | _ => option_map (fun x => (ip, fp, x)) (int_literal r)
        end
      else None
  end.

(** [strconv.ParseFloat(lit, 64)] reports a range error when the literal
    rounds to an infinity, that is from [2^1024 - 2^970] upwards in
    magnitude. *)
Definition float64_range_error (lit : string) : bool :=
  match number_parts lit with
  | None => false
  | Some (ip, fp, e) =>
      let m := digits_value (String.append ip fp) in
      let n := Z.of_nat (String.length ip + String.length fp) in
      let x := e - Z.of_nat (String.length fp) in
      let top := 2 ^ 1024 - 2 ^ 970 in
      if m =? 0 then false
      else if n + x <=? 308 then false
      else if 400 <? x then true
      else if 0 <=? x then top <=? m * 10 ^ x
      else top * 10 ^ (- x) <=? m
  end.

(** Into an [interface{}]: nil, bool, float64, string, []interface{} or
    map[string]interface{}. *)
Fixpoint decode_interface (j : json) : value * option error :=
  match j with
  | JNull => (VNil, None)
  | JBool b => (VBool b, None)
  | JNumber lit =>
      if float64_range_error lit
      then (VNil, Some (UnmarshalTypeError (String.append "number " lit)))
      else (VFloat64 lit, None)
  | JString s => (VString s, None)
  | JArray xs =>
      let fix elems (xs : list json) : list value * option error :=
        match xs with
        | [] => ([], None)
        | x :: r =>
            let (v, e) := decode_interface x in
            let (vs, es) := elems r in
            (v :: vs, first_error e es)
        end in
      let (vs, e) := elems xs in (VSlice vs, e)
  | JObject ms =>
      let fix members (ms : list (string * json)) (acc : list (string * value))
        : list (string * value) * option error :=
        match ms with
        | [] => (acc, None)
        | (k, x) :: r =>
            let (v, e) := decode_interface x in
            let (m, es) := members r (map_set k v acc) in
            (m, first_error e es)
        end in
      let (m, e) := members ms [] in (VMap m, e)
  end.

(** Into a [map[string]interface{}] field: null stores the nil map, an object
    is merged into the map already there, anything else is a type error. *)
Fixpoint decode_map_members (ms : list (string * json)) (acc : list (string * value))
  : list (string * value) * option error :=
  match ms with
  | [] => (acc, None)
  | (k, x) :: r =>
      let (v, e) := decode_interface x in
      let (m, es) := decode_map_members r (map_set k v acc) in
      (m, first_error e es)
  end.

Definition decode_map (j : json) (cur : option (list (string * value)))
  : option (list (string * value)) * option error :=
  match j with
  | JNull => (None, None)
  | JObject ms =>
      let (m, e) := decode_map_members ms (match cur with Some m => m | None => [] end) in
      (Some m, e)
  | _ => (cur, Some (UnmarshalTypeError (json_kind j)))
  end.

(** Into a [string] field. *)
Definition decode_string (j : json) (cur : string) : string * option error :=
  match j with
  | JNull => (cur, None)
  | JString s => (s, None)
  | _ => (cur, Some (UnmarshalTypeError (json_kind j)))
  end.

(** Into a signed integer field whose type holds the values accepted by
    [fits]. *)
Definition decode_int (fits : Z -> bool) (j : json) (cur : Z) : Z * option error :=
  match j with
  | JNull => (cur, None)
  | JNumber lit =>
      match int_literal lit with
      | Some n =>
          if (in_int64b n && fits n)%bool then (n, None)
          else (cur, Some (UnmarshalTypeError (String.append "number " lit)))
      | None => (cur, Some (UnmarshalTypeError (String.append "number " lit)))
      end
  | _ => (cur, Some (UnmarshalTypeError (json_kind j)))
  end.

(** Object keys are matched against the field names of the [json:"..."]
    tags without regard to letter case; the Kelvin sign and the long s count
    as [k] and [s].  No two fields of one struct of this package have names
    that agree in that sense, so the first match is the only one. *)
Definition lower_ascii (c : ascii) : ascii :=
  let n := N_of_ascii c in
  if ((65 <=? n) && (n <=? 90))%N then ascii_of_N (n + 32) else c.

Definition is_byte (c : ascii) (n : N) : bool := (N_of_ascii c =? n)%N.

Fixpoint fold_name (s : string) : string :=
  match s with
  | EmptyString => EmptyString
  | String c r =>
      match r with
      | EmptyString => String (lower_ascii c) EmptyString
      | String c2 r2 =>
          if (is_byte c 197 && is_byte c2 191)%bool then String "s" (fold_name r2)
          else
            match r2 with
            | String c3 r3 =>
                if (is_byte c 226 && is_byte c2 132 && is_byte c3 170)%bool
                then String "k" (fold_name r3)
                else String (lower_ascii c) (fold_name r)
            | EmptyString => String (lower_ascii c) (fold_name r)
            end
      end
  end.

Definition names (key tag : string) : bool :=
  String.eqb (fold_name key) (fold_name tag).

(** The members of an object, in order, each stored by [field]. *)
Fixpoint decode_members {T : Type}
    (field : string -> json -> T -> T * option error)
    (ms : list (string * json)) (cur : T) : T * option error :=
  match ms with
  | [] => (cur, None)
  | (k, x) :: r =>
      let (c1, e1) := field k x cur in
      let (c2, e2) := decode_members field r c1 in
      (c2, first_error e1 e2)
  end.

(** Into a struct: null has no effect, an object is stored member by member,
    anything else is a type error. *)
Definition decode_struct {T : Type}
    (field : string -> json -> T -> T * option error)
    (j : json) (cur : T) : T * option error :=
  match j with
  | JNull => (cur, None)
  | JObject ms => decode_members field ms cur
  | _ => (cur, Some (UnmarshalTypeError (json_kind j)))
  end.

Definition decode_request_field (k : string) (j : json) (r : request)
  : request * option error :=
  if names k "id" then
    let (s, e) := decode_string j (request_ID r) in
    (mkrequest s (request_RequestType r), e)
  else if names k "type" then
    let (s, e) := decode_string j (request_RequestType r) in
    (mkrequest (request_ID r) s, e)
  else (r, None).

Definition decode_trace_field (k : string) (j : json) (t : trace)
  : trace * option error :=
  let '(mktrace tid psid sid ts svc mth dur) := t in
  if names k "traceId" then
    let (s, e) := decode_string j tid in (mktrace s psid sid ts svc mth dur, e)
  else if names k "parentSpanId" then
    let (s, e) := decode_string j psid in (mktrace tid s sid ts svc mth dur, e)
  else if names k "spanId" then
    let (s, e) := decode_string j sid in (mktrace tid psid s ts svc mth dur, e)
  else if names k "timestamp" then
    let (n, e) := decode_int (fun _ => true) j ts in (mktrace tid psid sid n svc mth dur, e)
  else if names k "service" then
    let (s, e) := decode_string j svc in (mktrace tid psid sid ts s mth dur, e)
  else if names k "method" then
    let (s, e) := decode_string j mth in (mktrace tid psid sid ts svc s dur, e)
  else if names k "duration" then
    let (n, e) := decode_int (fun _ => true) j dur in (mktrace tid psid sid ts svc mth n, e)
  else (t, None).

Definition decode_Error_field (k : string) (j : json) (x : Error)
  : Error * option error :=
  let '(mkError nm msg code) := x in
  if names k "name" then
    let (s, e) := decode_string j nm in (mkError s msg code, e)
  else if names k "message" then
    let (s, e) := decode_string j msg in (mkError nm s code, e)
  else if names k "code" then
    let (n, e) := decode_int in_int16b j code in (mkError nm msg n, e)
  else (x, None).

(** Into the [*Error] field: null stores the nil pointer; for any other
    value the pointer is allocated when nil, before the value is looked at. *)
Definition decode_Error_ptr (j : json) (cur : option Error)
  : option Error * option error :=
  match j with
  | JNull => (None, None)
  | _ =>
      let (x, e) :=
        decode_struct decode_Error_field j
          (match cur with Some x => x | None => Error_zero end) in
      (Some x, e)
  end.

Definition decode_packet_field (k : string) (j : json) (pk : packet)
  : packet * option error :=
  let '(mkpacket pat meta dlg res trc req err) := pk in
  if names k "pattern" then
    let (m, e) := decode_map j pat in (mkpacket m meta dlg res trc req err, e)
  else if names k "meta" then
    let (m, e) := decode_map j meta in (mkpacket pat m dlg res trc req err, e)
  else if names k "delegate" then
    let (m, e) := decode_map j dlg in (mkpacket pat meta m res trc req err, e)
  else if names k "result" then
    let (v, e) := decode_interface j in (mkpacket pat meta dlg v trc req err, e)
  else if names k "trace" then
    let (t, e) := decode_struct decode_trace_field j trc in
    (mkpacket pat meta dlg res t req err, e)
  else if names k "request" then
    let (r, e) := decode_struct decode_request_field j req in
    (mkpacket pat meta dlg res trc r err, e)
  else if names k "error" then
    let (x, e) := decode_Error_ptr j err in (mkpacket pat meta dlg res trc req x, e)
  else (pk, None).

(** [json.Unmarshal(data, &pack)]: the packet after the call, and the error
    returned. *)
Definition json_Unmarshal (data : bytes) (pack : packet) : packet * option error :=
  match data with
  | RawBytes _ => (pack, Some SyntaxError)
  | JSONText doc => decode_struct decode_packet_field doc pack
  end.

(* ================================================================= *)
(** ** encoding/json, encoding *)

Definition decimal (n : Z) : string := NilEmpty.string_of_int (Z.to_int n).

Definition marshal_Error (e : Error) : json :=
  JObject [("name", JString (Error_Name e));
           ("message", JString (Error_Message e));
           ("code", JNumber (decimal (Error_Code e)))].

Definition marshal_trace (t : trace) : json :=
  JObject [("traceId", JString (trace_TraceID t));
           ("parentSpanId", JString (trace_ParentSpanID t));
           ("spanId", JString (trace_SpanID t));
           ("timestamp", JNumber (decimal (trace_Timestamp t)));
           ("service", JString (trace_Service t));
           ("method", JString (trace_Method t));
           ("duration", JNumber (decimal (trace_Duration t)))].

Definition marshal_request (r : request) : json :=
  JObject [("id", JString (request_ID r));
           ("type", JString (request_RequestType r))].

(** All members, or the first error among them. *)
Fixpoint collect_members (ms : list (string * (json + error)))
  : list (string * json) + error :=
  match ms with
  | [] => inl []
  | (k, inl j) :: r =>
      match collect_members r with
      | inl js => inl ((k, j) :: js)
      | inr e => inr e
      end
  | (_, inr e) :: _ => inr e
  end.

(** A value held in an [interface{}].  A map is written with its keys
    sorted; a struct in the order of its fields; a nil pointer, map or slice
    as null.  Functions and channels are refused. *)
Fixpoint marshal_value (v : value) : json + error :=
  match v with
  | VNil => inl JNull
  | VTypedNil _ => inl JNull
  | VBool b => inl (JBool b)
  | VInt n => inl (JNumber (decimal n))
  | VFloat64 lit => inl (JNumber lit)
  | VString s => inl (JString s)
  | VSlice xs =>
      let fix elems (xs : list value) : list json + error :=
        match xs with
        | [] => inl []
        | x :: r =>
            match marshal_value x with
            | inl j => match elems r with inl js => inl (j :: js) | inr e => inr e end
            | inr e => inr e
            end
        end in
      match elems xs with inl js => inl (JArray js) | inr e => inr e end
  | VMap m =>
      let fix members (m : list (string * value)) : list (string * (json + error)) :=
        match m with
        | [] => []
        | (k, x) :: r => (k, marshal_value x) :: members r
        end in
      match collect_members (map_canon (members m)) with
      | inl js => inl (JObject js)
      | inr e => inr e
      end
  | VError e => inl (marshal_Error e)
  | VErrorPtr e => inl (marshal_Error e)
  | VStruct _ fs =>
      let fix members (m : list (string * value)) : list (string * (json + error)) :=
        match m with
        | [] => []
        | (k, x) :: r => (k, marshal_value x) :: members r
        end in
      match collect_members (members fs) with
      | inl js => inl (JObject js)
      | inr e => inr e
      end
  | VFunc ty => inr (UnsupportedTypeError ty)
  end.

Definition marshal_map (m : option (list (string * value))) : json + error :=
  match m with
  | None => inl JNull
  | Some m => marshal_value (VMap m)
  end.

Definition marshal_Error_ptr (e : option Error) : json :=
  match e with
  | None => JNull
  | Some x => marshal_Error x
  end.

(** The document of a [packet]: every field is written, in declaration
    order, none is omitted when empty. *)
Definition marshal_packet (pk : packet) : json + error :=
  match marshal_map (packet_Pattern pk) with
  | inr e => inr e
  | inl pat =>
  match marshal_map (packet_Meta pk) with
  | inr e => inr e
  | inl meta =>
  match marshal_map (packet_Delegate pk) with
  | inr e => inr e
  | inl dlg =>
  match marshal_value (packet_Result pk) with
  | inr e => inr e
  | inl res =>
      inl (JObject [("pattern", pat); ("meta", meta); ("delegate", dlg);
                    ("result", res);
                    ("trace", marshal_trace (packet_Trace pk));
                    ("request", marshal_request (packet_Request pk));
                    ("error", marshal_Error_ptr (packet_Error pk))])
  end end end end.

(** [json.Marshal(&pack)]: the bytes (nil on failure) and the error. *)
Definition json_Marshal (pk : packet) : bytes * option error :=
  match marshal_packet pk with
  | inl doc => (JSONText doc, None)
  | inr e => (nil_bytes, Some e)
  end.

(** The value of a member of an object; null when there is none. *)
Definition json_member (k : string) (doc : json) : json :=
  match doc with
  | JObject ms => match map_get k ms with Some j => j | None => JNull end
  | _ => JNull
  end.

(* ================================================================= *)
(** ** The package's structs and closures *)

(** [*nats.Conn]: nil, or a handle on a connection. *)
Definition Conn := option nat.

Record Options := mkOptions {
  Options_Timeout : Duration
}.

(** Hemera is the main struct *)
Record Hemera := mkHemera {
  Hemera_Conn : Conn;
  Hemera_Opts : Options
}.

(** [nats.Msg], the fields the package reads. *)
Record Msg := mkMsg {
  Msg_Subject : string;
  Msg_Reply : string;
  Msg_Data : bytes
}.

(** The caller's callbacks, [addHandler = func(Pattern, Reply)] and
    [actHandler = func(ClientResult)], are code of the caller: the model only
    names them and records when they are called and with what. *)
Inductive addHandler : Type := AddHandlerFunc (name : string).
Inductive actHandler : Type := ActHandlerFunc (name : string).

(** The function literal in [Add] that is passed to [QueueSubscribe], with
    the variables it captures.  [h] and the map [p] are shared with the
    caller of [Add]; the package only reads them, and the closure is kept
    with their content at the time of the call. *)
Record MsgHandler := mkMsgHandler {
  MsgHandler_h : Hemera;
  MsgHandler_p : Pattern;
  MsgHandler_handler : addHandler
}.

(** Reply is function type to represent the callback handler.  The only
    value of that type the package builds is the inner function literal of
    [Add], kept here with the variables it captures. *)
Record Reply := mkReply {
  Reply_h : Hemera;
  Reply_p : Pattern;
  Reply_m : Msg
}.

(* ================================================================= *)
(** ** Programs *)

(** A program is the tree of the calls it makes to its collaborators, each
    with the continuation that receives the answer.  [LogFatal] keeps the
    statements that follow the call, which are never run. *)
Inductive prog (R : Type) : Type :=
| Ret (r : R)
| Panic (msg : string)
| LogFatal (msg : string) (k : prog R)
| NuidNext (k : string -> prog R)
| ConnQueueSubscribe (c : Conn) (subj queue : string) (cb : MsgHandler)
    (k : option error -> prog R)
| ConnPublish (c : Conn) (subj : string) (data : bytes)
    (k : option error -> prog R)
| ConnRequest (c : Conn) (subj : string) (data : bytes) (timeout : Duration)
    (k : option Msg * option error -> prog R)
| CallAddHandler (f : addHandler) (p : Pattern) (reply : Reply) (k : prog R)
| CallActHandler (f : actHandler) (res : ClientResult) (k : prog R).

Arguments Ret {R} r.
Arguments Panic {R} msg.
Arguments LogFatal {R} msg k.
Arguments NuidNext {R} k.
Arguments ConnQueueSubscribe {R} c subj queue cb k.
Arguments ConnPublish {R} c subj data k.
Arguments ConnRequest {R} c subj data timeout k.
Arguments CallAddHandler {R} f p reply k.
Arguments CallActHandler {R} f res k.

Fixpoint bind {A B : Type} (m : prog A) (f : A -> prog B) : prog B :=
  match m with
  | Ret a => f a
  | Panic msg => Panic msg
  | LogFatal msg k => LogFatal msg (bind k f)
  | NuidNext k => NuidNext (fun id => bind (k id) f)
  | ConnQueueSubscribe c subj queue cb k =>
      ConnQueueSubscribe c subj queue cb (fun e => bind (k e) f)
  | ConnPublish c subj data k => ConnPublish c subj data (fun e => bind (k e) f)
  | ConnRequest c subj data timeout k =>
      ConnRequest c subj data timeout (fun r => bind (k r) f)
  | CallAddHandler h p reply k => CallAddHandler h p reply (bind k f)
  | CallActHandler h res k => CallActHandler h res (bind k f)
  end.

Declare Scope prog_scope.
Delimit Scope prog_scope with prog.
Notation "x <- m ;; k" := (bind m (fun x => k))
  (at level 61, m at next level, right associativity) : prog_scope.
Notation "m ;; k" := (bind m (fun _ => k))
  (at level 61, right associativity) : prog_scope.
Local Open Scope prog_scope.

(** The calls, as the source writes them. *)
Definition log_Fatal (msg : string) : prog unit := LogFatal msg (Ret tt).
Definition nuid_Next : prog string := NuidNext (fun id => Ret id).
Definition Conn_QueueSubscribe (c : Conn) (subj queue : string) (cb : MsgHandler)
  : prog (option error) := ConnQueueSubscribe c subj queue cb (fun e => Ret e).
Definition Conn_Publish (c : Conn) (subj : string) (data : bytes)
  : prog (option error) := ConnPublish c subj data (fun e => Ret e).
Definition Conn_Request (c : Conn) (subj : string) (data : bytes) (timeout : Duration)
  : prog (option Msg * option error) :=
  ConnRequest c subj data timeout (fun r => Ret r).
Definition call_addHandler (f : addHandler) (p : Pattern) (reply : Reply)
  : prog unit := CallAddHandler f p reply (Ret tt).
Definition call_actHandler (f : actHandler) (res : ClientResult)
  : prog unit := CallActHandler f res (Ret tt).

(** What an observer sees of a run: each call with the answer it got. *)
Inductive event : Type :=
| EvPanic (msg : string)
| EvLogFatal (msg : string)
| EvNuidNext (id : string)
| EvQueueSubscribe (c : Conn) (subj queue : string) (cb : MsgHandler)
    (err : option error)
| EvPublish (c : Conn) (subj : string) (data : bytes) (err : option error)
| EvRequest (c : Conn) (subj : string) (data : bytes) (timeout : Duration)
    (m : option Msg) (err : option error)
| EvAddHandler (f : addHandler) (p : Pattern) (reply : Reply)
| EvActHandler (f : actHandler) (res : ClientResult).

(** How a run ends: the function returns, the process exits ([os.Exit]), or
    the goroutine panics. *)
Inductive outcome (R : Type) : Type :=
| Returned (r : R)
| Exited (status : Z)
| Panicked.

Arguments Returned {R} r.
Arguments Exited {R} status.
Arguments Panicked {R}.

(** The collaborators.  Every answer may depend on all that happened
    before. *)
Record World := mkWorld {
  World_nuid : list event -> string;
  World_QueueSubscribe : list event -> Conn -> string -> string -> option error;
  World_Publish : list event -> Conn -> string -> bytes -> option error;
  World_Request :
    list event -> Conn -> string -> bytes -> Duration -> option Msg * option error
}.

(** A run of a program in a world, after the events [past]: all events so
    far, and the outcome.  Package log: "Fatal is equivalent to Print()
    followed by a call to os.Exit(1)"; nothing after it runs. *)
Fixpoint exec {R : Type} (w : World) (past : list event) (p : prog R)
  : list event * outcome R :=
  match p with
  | Ret r => (past, Returned r)
  | Panic msg => (past ++ [EvPanic msg], Panicked)
  | LogFatal msg _ => (past ++ [EvLogFatal msg], Exited 1)
  | NuidNext k =>
      let id := World_nuid w past in
      exec w (past ++ [EvNuidNext id]) (k id)
  | ConnQueueSubscribe c subj queue cb k =>
      let e := World_QueueSubscribe w past c subj queue in
      exec w (past ++ [EvQueueSubscribe c subj queue cb e]) (k e)
  | ConnPublish c subj data k =>
      let e := World_Publish w past c subj data in
      exec w (past ++ [EvPublish c subj data e]) (k e)
  | ConnRequest c subj data timeout k =>
      let r := World_Request w past c subj data timeout in
      exec w (past ++ [EvRequest c subj data timeout (fst r) (snd r)]) (k r)
  | CallAddHandler f p reply k => exec w (past ++ [EvAddHandler f p reply]) k
  | CallActHandler f res k => exec w (past ++ [EvActHandler f res]) k
  end.

(** The same program with every [log.Fatal] replaced by a call that logs
    and returns, as [log.Print] does: what the statements behind the fatal
    calls would do if they were reached. *)
Fixpoint with_returning_logger {R : Type} (p : prog R) : prog R :=
  match p with
  | Ret r => Ret r
  | Panic msg => Panic msg
  | LogFatal _ k => with_returning_logger k
  | NuidNext k => NuidNext (fun id => with_returning_logger (k id))
  | ConnQueueSubscribe c subj queue cb k =>
      ConnQueueSubscribe c subj queue cb (fun e => with_returning_logger (k e))
  | ConnPublish c subj data k =>
      ConnPublish c subj data (fun e => with_returning_logger (k e))
  | ConnRequest c subj data timeout k =>
      ConnRequest c subj data timeout (fun r => with_returning_logger (k r))
  | CallAddHandler f p reply k => CallAddHandler f p reply (with_returning_logger k)
  | CallActHandler f res k => CallActHandler f res (with_returning_logger k)
  end.

Definition is_transport (e : event) : bool :=
  match e with
  | EvQueueSubscribe _ _ _ _ _ | EvPublish _ _ _ _ | EvRequest _ _ _ _ _ _ => true
  | _ => false
  end.

Definition is_handler_call (e : event) : bool :=
  match e with
  | EvAddHandler _ _ _ | EvActHandler _ _ => true
  | _ => false
  end.

(** The events of a run that come after [past]. *)
Definition new_events (past : list event) (all : list event) : list event :=
  skipn (List.length past) all.

(* ================================================================= *)
(** ** hemera.go *)

Definition GetDefaultOptions : Options :=
  let opts := {| Options_Timeout := RequestTimeout |} in
  opts.

(** Option is a function on the options for hemera: [func(o *Options) error],
    here from the options before the call to the options after it and the
    error. *)
Definition Option : Type := Options -> Options * option error.

(** The loop of [NewHemera]: the options as the loop leaves them, and the
    error that stopped it. *)
Fixpoint apply_options (options : list Option) (opts : Options)
  : Options * option error :=
  match options with
  | [] => (opts, None)
  | opt :: rest =>
      let (opts', err) := opt opts in
      match err with
      | Some e => (opts', Some e)
      | None => apply_options rest opts'
      end
  end.

(** New create a new Hemera struct *)
Definition NewHemera (conn : Conn) (options : list Option) : Hemera * option error :=
  let opts := GetDefaultOptions in
  match apply_options options opts with
  | (opts, Some err) => ({| Hemera_Conn := None; Hemera_Opts := opts |}, Some err)
  | (opts, None) => ({| Hemera_Conn := conn; Hemera_Opts := opts |}, None)
  end.

(** Timeout is an Option to set the timeout for a act request *)
Definition Timeout (t : Duration) : Option :=
  fun o => ({| Options_Timeout := t |}, None).

(** The reply envelope the reply callback builds for [payload], once the
    identifier [id] has been drawn. *)
Definition Reply_response (p : Pattern) (id : string) (payload : value) : packet :=
  let response :=
    {| packet_Pattern := p;
       packet_Meta := None;
       packet_Delegate := None;
       packet_Result := VNil;
       packet_Trace := trace_zero;
       packet_Request := {| request_ID := id; request_RequestType := RequestType |};
       packet_Error := None |} in
  (* Check if error or message was passed *)
  let (he, ok) := assert_Error payload in
  if ok then
    {| packet_Pattern := packet_Pattern response;
       packet_Meta := packet_Meta response;
       packet_Delegate := packet_Delegate response;
       packet_Result := packet_Result response;
       packet_Trace := packet_Trace response;
       packet_Request := packet_Request response;
       packet_Error := Some he |}
  else
    {| packet_Pattern := packet_Pattern response;
       packet_Meta := packet_Meta response;
       packet_Delegate := packet_Delegate response;
       packet_Result := payload;
       packet_Trace := packet_Trace response;
       packet_Request := packet_Request response;
       packet_Error := packet_Error response |}.

(** The inner function literal of [Add], [func(payload interface{})]. *)
Definition Reply_call (reply : Reply) (payload : value) : prog unit :=
  let h := Reply_h reply in
  let p := Reply_p reply in
  let m := Reply_m reply in
  id <- nuid_Next ;;
  let response := Reply_response p id payload in
  (* Encode to JSON *)
  let (data, _) := json_Marshal response in
  (* Send *)
  _ <- Conn_Publish (Hemera_Conn h) (Msg_Reply m) data ;;
  Ret tt.

(** The function literal of [Add] passed to [QueueSubscribe],
    [func(m *nats.Msg)]. *)
Definition MsgHandler_call (cb : MsgHandler) (m : Msg) : prog unit :=
  let h := MsgHandler_h cb in
  let p := MsgHandler_p cb in
  let handler := MsgHandler_handler cb in
  let pack := packet_zero in
  let (pack, _) := json_Unmarshal (Msg_Data m) pack in
  call_addHandler handler (packet_Pattern pack)
    {| Reply_h := h; Reply_p := p; Reply_m := m |}.

(** Add is a method to subscribe on a specific topic *)
Definition Add (h : Hemera) (p : Pattern) (handler : addHandler)
  : prog (bool * option error) :=
  let (topic, ok) := assert_string (Pattern_index p "topic") in
  if negb ok then
    log_Fatal "Topic is required in Add definition" ;;
    Ret (false, Some ErrAddTopicRequired)
  else
    _ <- Conn_QueueSubscribe (Hemera_Conn h) topic topic
           {| MsgHandler_h := h; MsgHandler_p := p; MsgHandler_handler := handler |} ;;
    Ret (true, None).

(** The timeout [Act] hands to the transport: [h.Opts.Timeout*time.Millisecond]. *)
Definition Act_timeout (h : Hemera) : Duration :=
  Duration_mul (Options_Timeout (Hemera_Opts h)) time_Millisecond.

(** The request envelope of [Act], once the identifier [id] has been drawn. *)
Definition Act_request (p : Pattern) (id : string) : packet :=
  {| packet_Pattern := p;
     packet_Meta := None;
     packet_Delegate := None;
     packet_Result := VNil;
     packet_Trace := trace_zero;
     packet_Request := {| request_ID := id; request_RequestType := RequestType |};
     packet_Error := None |}.

(** Act is a method to send a message to a NATS subscriber which the specific topic *)
Definition Act (h : Hemera) (p : Pattern) (handler : actHandler)
  : prog (bool * option error) :=
  let (topic, ok) := assert_string (Pattern_index p "topic") in
  if negb ok then
    log_Fatal "Topic is required in Act call" ;;
    Ret (false, Some ErrActTopicRequired)
  else
    id <- nuid_Next ;;
    let request := Act_request p id in
    let (data, _) := json_Marshal request in
    r <- Conn_Request (Hemera_Conn h) topic data (Act_timeout h) ;;
    let (m, err) := r in
    match err with
    | Some _ =>
        log_Fatal "Act could not be executed" ;;
        Ret (false, err)
    | None =>
        match m with
        | None => Panic "invalid memory address or nil pointer dereference"
        | Some m =>
            let pack := packet_zero in
            let (pack, mErr) := json_Unmarshal (Msg_Data m) pack in
            match mErr with
            | Some _ =>
                log_Fatal "Act response could not be unmarshalled" ;;
                Ret (false, err)
            | None =>
                match packet_Error pack with
                | Some e => call_actHandler handler (VErrorPtr e)
                | None => call_actHandler handler (packet_Result pack)
                end ;;
                Ret (true, None)
            end
        end
    end.

(* ================================================================= *)
(** ** Vocabulary of the statements *)

(** The pattern has a [topic] key that holds the string [topic]. *)
Definition has_string_topic (p : Pattern) (topic : string) : Prop :=
  Pattern_index p "topic" = VString topic.

(** The pattern has no [topic] key, or one that does not hold a string. *)
Definition lacks_string_topic (p : Pattern) : Prop :=
  forall topic, Pattern_index p "topic" <> VString topic.

(** The bytes [Act] sends for pattern [p] under identifier [id]. *)
Definition Act_data (p : Pattern) (id : string) : bytes :=
  fst (json_Marshal (Act_request p id)).

(** The answer of the world to the request of [Act h p _] started after
    [past]. *)
Definition Act_answer (w : World) (past : list event) (h : Hemera) (p : Pattern)
    (topic : string) : option Msg * option error :=
  let id := World_nuid w past in
  World_Request w (past ++ [EvNuidNext id]) (Hemera_Conn h) topic
    (Act_data p id) (Act_timeout h).

(** The request event of that call. *)
Definition Act_request_event (w : World) (past : list event) (h : Hemera)
    (p : Pattern) (topic : string) : event :=
  let id := World_nuid w past in
  EvRequest (Hemera_Conn h) topic (Act_data p id) (Act_timeout h)
    (fst (Act_answer w past h p topic)) (snd (Act_answer w past h p topic)).

(** What [Act] hands to the caller's handler for a decoded reply. *)
Definition Act_delivery (pack : packet) : ClientResult :=
  match packet_Error pack with
  | Some e => VErrorPtr e
  | None => packet_Result pack
  end.

(** The bytes the reply callback publishes. *)
Definition Reply_data (p : Pattern) (id : string) (payload : value) : bytes :=
  fst (json_Marshal (Reply_response p id payload)).

(* ================================================================= *)
(** ** Worlds and inputs of the examples *)

(** Identifiers [nuid-0], [nuid-1], ... by the number of events so far; a
    transport that accepts every subscription and publication and answers
    every request with [answer]. *)
Definition example_World (answer : option Msg * option error) : World :=
  {| World_nuid := fun past =>
       String.append "nuid-" (decimal (Z.of_nat (List.length past)));
     World_QueueSubscribe := fun _ _ _ _ => None;
     World_Publish := fun _ _ _ _ => None;
     World_Request := fun _ _ _ _ _ => answer |}.

Definition silent_World : World := example_World (None, Some nats_ErrTimeout).

Definition example_Hemera : Hemera := fst (NewHemera (Some 1%nat) []).

Definition on_add : addHandler := AddHandlerFunc "onAdd".
Definition on_result : actHandler := ActHandlerFunc "onResult".

(** [Pattern{}] *)
Definition empty_Pattern : Pattern := Some [].

(** [Pattern{"topic": "math.div", "a": 1, "b": 0}] *)
Definition math_div : Pattern :=
  Some [("topic", VString "math.div"); ("a", VInt 1); ("b", VInt 0)].

(** [Pattern{"topic": "nobody.home"}] *)
Definition nobody_home : Pattern := Some [("topic", VString "nobody.home")].

Definition DivByZero : Error := mkError "DivByZero" "b=0" 400.

Definition reply_Msg (data : bytes) : Msg :=
  {| Msg_Subject := "_INBOX.reply"; Msg_Reply := EmptyString; Msg_Data := data |}.

Definition inbound_Msg (data : bytes) : Msg :=
  {| Msg_Subject := "math.div"; Msg_Reply := "_INBOX.caller"; Msg_Data := data |}.

(** [{"result":null,"error":{"name":"DivByZero","message":"b=0","code":400}}] *)
Definition error_reply : bytes :=
  JSONText (JObject [("result", JNull); ("error", marshal_Error DivByZero)]).

(** [{"result":"ok"}] *)
Definition ok_reply : bytes := JSONText (JObject [("result", JString "ok")]).

(** [not json] *)
Definition garbage : bytes := RawBytes "not json".

(** [{"pattern":{"topic":"math.div"},"request":5}]: well-formed, but a
    number where the request header is expected. *)
Definition ill_typed_request : bytes :=
  JSONText (JObject [("pattern", JObject [("topic", JString "math.div")]);
                     ("request", JNumber "5")]).

(** [{"pattern":{"topic":"math.div"},"request":{"id":"caller-7","type":"request"}}] *)
Definition inbound_request : bytes :=
  JSONText (JObject [("pattern", JObject [("topic", JString "math.div")]);
                     ("request", marshal_request (mkrequest "caller-7" RequestType))]).

(* ================================================================= *)
(** ** Further vocabulary and inputs *)

(** A transport whose connection is closed: every call fails. *)
Definition closed_World : World :=
  {| World_nuid := fun past =>
       String.append "nuid-" (decimal (Z.of_nat (List.length past)));
     World_QueueSubscribe := fun _ _ _ _ => Some nats_ErrConnectionClosed;
     World_Publish := fun _ _ _ _ => Some nats_ErrConnectionClosed;
     World_Request := fun _ _ _ _ _ => (None, Some nats_ErrConnectionClosed) |}.

(** An option of a caller that refuses. *)
Definition failing_Option : Option :=
  fun o => (o, Some (ErrOption "bad option")).








(** Induction on values and on documents, through the lists they hold. *)
Section nested_induction.

Variable P : value -> Prop.
Hypothesis HNil : P VNil.
Hypothesis HTypedNil : forall ty, P (VTypedNil ty).
Hypothesis HBool : forall b, P (VBool b).
Hypothesis HInt : forall n, P (VInt n).
Hypothesis HFloat64 : forall lit, P (VFloat64 lit).
Hypothesis HString : forall s, P (VString s).
Hypothesis HSlice : forall xs, Forall P xs -> P (VSlice xs).
Hypothesis HMap : forall m, Forall (fun kv => P (snd kv)) m -> P (VMap m).
Hypothesis HError : forall e, P (VError e).
Hypothesis HErrorPtr : forall e, P (VErrorPtr e).
Hypothesis HStruct :
  forall ty fs, Forall (fun kv => P (snd kv)) fs -> P (VStruct ty fs).
Hypothesis HFunc : forall ty, P (VFunc ty).


Variable Q : json -> Prop.
Hypothesis HJNull : Q JNull.
Hypothesis HJBool : forall b, Q (JBool b).
Hypothesis HJNumber : forall lit, Q (JNumber lit).
Hypothesis HJString : forall s, Q (JString s).
Hypothesis HJArray : forall xs, Forall Q xs -> Q (JArray xs).
Hypothesis HJObject : forall ms, Forall (fun kx => Q (snd kx)) ms -> Q (JObject ms).


End nested_induction.






(* ================================================================= *)
(** * Properties *)

(** ** Bookkeeping *)

Lemma new_events_app (past l : list event) : new_events past (past ++ l) = l.
Proof.
  unfold new_events. induction past as [|e past IH]; simpl; [reflexivity | exact IH].
Qed.

Lemma lacks_string_topic_assert (p : Pattern) :
  lacks_string_topic p -> assert_string (Pattern_index p "topic") = (EmptyString, false).
Proof.
  intros H. destruct (Pattern_index p "topic") eqn:E; try reflexivity.
  exfalso. exact (H s E).
Qed.

Lemma has_string_topic_assert (p : Pattern) (topic : string) :
  has_string_topic p topic -> assert_string (Pattern_index p "topic") = (topic, true).
Proof. unfold has_string_topic. intros ->. reflexivity. Qed.

Lemma topic_present_or_lacking (p : Pattern) :
  (exists topic, has_string_topic p topic) \/ lacks_string_topic p.
Proof.
  unfold has_string_topic, lacks_string_topic.
  destruct (Pattern_index p "topic");
    try (right; intros topic; discriminate).
  left. eexists. reflexivity.
Qed.

Lemma wrap_int64_small (z : Z) : in_int64 z -> wrap_int64 z = z.
Proof.
  unfold in_int64, wrap_int64. intros H.
  rewrite Z.mod_small by lia. lia.
Qed.

Lemma wrap_int64_range (z : Z) : in_int64 (wrap_int64 z).
Proof.
  unfold in_int64, wrap_int64.
  pose proof (Z.mod_pos_bound (z + 2 ^ 63) (2 ^ 64) ltac:(lia)). lia.
Qed.




(** ** The paths of [Add] and [Act] *)

Lemma Add_exec_lacking (w : World) (past : list event) (h : Hemera) (p : Pattern)
    (f : addHandler) :
  lacks_string_topic p ->
  exec w past (Add h p f)
  = (past ++ [EvLogFatal "Topic is required in Add definition"], Exited 1).
Proof.
  intros H. unfold Add. rewrite (lacks_string_topic_assert p H). reflexivity.
Qed.

Lemma Add_exec_topic (w : World) (past : list event) (h : Hemera) (p : Pattern)
    (f : addHandler) (topic : string) :
  has_string_topic p topic ->
  exec w past (Add h p f)
  = (past ++ [EvQueueSubscribe (Hemera_Conn h) topic topic
                (mkMsgHandler h p f)
                (World_QueueSubscribe w past (Hemera_Conn h) topic topic)],
     Returned (true, None)).
Proof.
  intros H. unfold Add. rewrite (has_string_topic_assert p topic H). reflexivity.
Qed.

Lemma Act_exec_lacking (w : World) (past : list event) (h : Hemera) (p : Pattern)
    (f : actHandler) :
  lacks_string_topic p ->
  exec w past (Act h p f)
  = (past ++ [EvLogFatal "Topic is required in Act call"], Exited 1).
Proof.
  intros H. unfold Act. rewrite (lacks_string_topic_assert p H). reflexivity.
Qed.

(** Every path of [Act] on a pattern with a topic. *)
Lemma Act_exec_topic (w : World) (past : list event) (h : Hemera) (p : Pattern)
    (f : actHandler) (topic : string) :
  has_string_topic p topic ->
  exec w past (Act h p f)
  = let sent := past ++ [EvNuidNext (World_nuid w past);
                         Act_request_event w past h p topic] in
    match Act_answer w past h p topic with
    | (_, Some _) => (sent ++ [EvLogFatal "Act could not be executed"], Exited 1)
    | (None, None) =>
        (sent ++ [EvPanic "invalid memory address or nil pointer dereference"],
         Panicked)
    | (Some m, None) =>
        match json_Unmarshal (Msg_Data m) packet_zero with
        | (_, Some _) =>
            (sent ++ [EvLogFatal "Act response could not be unmarshalled"], Exited 1)
        | (pack, None) =>
            (sent ++ [EvActHandler f (Act_delivery pack)], Returned (true, None))
        end
    end.
Proof.
  intros H. unfold Act. rewrite (has_string_topic_assert p topic H).
  unfold Act_request_event, Act_answer, Act_data, Act_delivery.
  cbn [negb exec bind nuid_Next].
  destruct (json_Marshal (Act_request p (World_nuid w past))) as [data merr].
  cbn [fst exec bind Conn_Request].
  destruct (World_Request w (past ++ [EvNuidNext (World_nuid w past)])
              (Hemera_Conn h) topic data (Act_timeout h)) as [[m|] [err|]];
    cbn [fst snd exec bind log_Fatal]; rewrite <- ?app_assoc; try reflexivity.
  destruct (json_Unmarshal (Msg_Data m) packet_zero) as [pack [mErr|]];
    cbn [exec bind log_Fatal]; rewrite <- ?app_assoc; try reflexivity.
  destruct (packet_Error pack);
    cbn [exec bind call_actHandler]; rewrite <- ?app_assoc; reflexivity.
Qed.

(** The same paths when the logger returns: the statements the source writes
    behind each [log.Fatal]. *)
Lemma Add_returning_lacking (w : World) (past : list event) (h : Hemera)
    (p : Pattern) (f : addHandler) :
  lacks_string_topic p ->
  exec w past (with_returning_logger (Add h p f))
  = (past, Returned (false, Some ErrAddTopicRequired)).
Proof.
  intros H. unfold Add. rewrite (lacks_string_topic_assert p H). reflexivity.
Qed.

Lemma Act_returning_lacking (w : World) (past : list event) (h : Hemera)
    (p : Pattern) (f : actHandler) :
  lacks_string_topic p ->
  exec w past (with_returning_logger (Act h p f))
  = (past, Returned (false, Some ErrActTopicRequired)).
Proof.
  intros H. unfold Act. rewrite (lacks_string_topic_assert p H). reflexivity.
Qed.

Lemma Act_returning_topic (w : World) (past : list event) (h : Hemera)
    (p : Pattern) (f : actHandler) (topic : string) :
  has_string_topic p topic ->
  exec w past (with_returning_logger (Act h p f))
  = let sent := past ++ [EvNuidNext (World_nuid w past);
                         Act_request_event w past h p topic] in
    match Act_answer w past h p topic with
    | (_, Some err) => (sent, Returned (false, Some err))
    | (None, None) =>
        (sent ++ [EvPanic "invalid memory address or nil pointer dereference"],
         Panicked)
    | (Some m, None) =>
        match json_Unmarshal (Msg_Data m) packet_zero with
        | (_, Some _) => (sent, Returned (false, None))
        | (pack, None) =>
            (sent ++ [EvActHandler f (Act_delivery pack)], Returned (true, None))
        end
    end.
Proof.
  intros H. unfold Act. rewrite (has_string_topic_assert p topic H).
  unfold Act_request_event, Act_answer, Act_data, Act_delivery.
  cbn [negb exec bind nuid_Next with_returning_logger].
  destruct (json_Marshal (Act_request p (World_nuid w past))) as [data merr].
  cbn [fst exec bind Conn_Request with_returning_logger].
  destruct (World_Request w (past ++ [EvNuidNext (World_nuid w past)])
              (Hemera_Conn h) topic data (Act_timeout h)) as [[m|] [err|]];
    cbn [fst snd exec bind log_Fatal with_returning_logger];
    rewrite <- ?app_assoc; try reflexivity.
  destruct (json_Unmarshal (Msg_Data m) packet_zero) as [pack [mErr|]];
    cbn [exec bind log_Fatal with_returning_logger];
    rewrite <- ?app_assoc; try reflexivity.
  destruct (packet_Error pack);
    cbn [exec bind call_actHandler with_returning_logger];
    rewrite <- ?app_assoc; reflexivity.
Qed.

(** ** The two closures of [Add] *)

Lemma MsgHandler_call_exec (w : World) (past : list event) (cb : MsgHandler)
    (m : Msg) :
  exec w past (MsgHandler_call cb m)
  = (past ++ [EvAddHandler (MsgHandler_handler cb)
                (packet_Pattern (fst (json_Unmarshal (Msg_Data m) packet_zero)))
                (mkReply (MsgHandler_h cb) (MsgHandler_p cb) m)],
     Returned tt).
Proof.
  unfold MsgHandler_call.
  destruct (json_Unmarshal (Msg_Data m) packet_zero) as [pack e]. reflexivity.
Qed.

Lemma Reply_call_exec (w : World) (past : list event) (reply : Reply)
    (payload : value) :
  exec w past (Reply_call reply payload)
  = let id := World_nuid w past in
    let c := Hemera_Conn (Reply_h reply) in
    let data := Reply_data (Reply_p reply) id payload in
    (past ++ [EvNuidNext id;
              EvPublish c (Msg_Reply (Reply_m reply)) data
                (World_Publish w (past ++ [EvNuidNext id]) c
                   (Msg_Reply (Reply_m reply)) data)],
     Returned tt).
Proof.
  unfold Reply_call, Reply_data. cbn [exec bind nuid_Next].
  destruct (json_Marshal
              (Reply_response (Reply_p reply) (World_nuid w past) payload))
    as [data e].
  cbn [fst exec bind Conn_Publish]. rewrite <- app_assoc. reflexivity.
Qed.

(* ================================================================= *)
(** ** Missing topic *)

(** C1 (the code departs from the claim).  For every pattern without a string
    [topic], [Add] and [Act] touch the transport not at all, as the claim
    says: no subscription, no publication, no request.  But neither returns:
    each calls [log.Fatal], which ends the process with status 1, so the
    caller never receives [ok=false] and the topic-required error.  That
    return is written in the source behind the fatal call; it is what runs
    when the logger returns. *)
Theorem missing_topic_ends_the_process (w : World) (past : list event)
    (h : Hemera) (p : Pattern) (fadd : addHandler) (fact : actHandler) :
  lacks_string_topic p ->
  (exec w past (Add h p fadd)
     = (past ++ [EvLogFatal "Topic is required in Add definition"], Exited 1)
   /\ exec w past (Act h p fact)
     = (past ++ [EvLogFatal "Topic is required in Act call"], Exited 1))
  /\ (filter is_transport (new_events past (fst (exec w past (Add h p fadd)))) = []
      /\ filter is_transport (new_events past (fst (exec w past (Act h p fact)))) = [])
  /\ (exec w past (with_returning_logger (Add h p fadd))
        = (past, Returned (false, Some ErrAddTopicRequired))
      /\ exec w past (with_returning_logger (Act h p fact))
        = (past, Returned (false, Some ErrActTopicRequired))).
Proof.
  intros H.
  rewrite (Add_exec_lacking w past h p fadd H), (Act_exec_lacking w past h p fact H).
  rewrite (Add_returning_lacking w past h p fadd H).
  rewrite (Act_returning_lacking w past h p fact H).
  cbn [fst]. rewrite !new_events_app. repeat split.
Qed.

Lemma missing_topic_ends_the_process_witness :
  lacks_string_topic empty_Pattern
  /\ exec silent_World [] (Add example_Hemera empty_Pattern on_add)
     = ([EvLogFatal "Topic is required in Add definition"], Exited 1)
  /\ exec silent_World [] (Act example_Hemera empty_Pattern on_result)
     = ([EvLogFatal "Topic is required in Act call"], Exited 1).
Proof.
  assert (H : lacks_string_topic empty_Pattern) by (intros topic; discriminate).
  split; [exact H |].
  exact (proj1 (missing_topic_ends_the_process silent_World [] example_Hemera
                  empty_Pattern on_add on_result H)).
Defined.

(* ================================================================= *)
(** ** The paths of [Act] after the request *)

(** C2 (the code departs from the claim).  When the transport answers the
    request of [Act] with an error, a timeout among them, the caller's
    handler is not invoked, as the claim says.  But [Act] does not return
    [ok=false] with that error: it calls [log.Fatal], which ends the process
    with status 1.  The return of [(false, err)] is written in the source
    behind the fatal call; it is what runs when the logger returns. *)
Theorem request_failure_ends_the_process (w : World) (past : list event)
    (h : Hemera) (p : Pattern) (f : actHandler) (topic : string) (err : error) :
  has_string_topic p topic ->
  snd (Act_answer w past h p topic) = Some err ->
  exec w past (Act h p f)
    = (past ++ [EvNuidNext (World_nuid w past);
                Act_request_event w past h p topic;
                EvLogFatal "Act could not be executed"],
       Exited 1)
  /\ filter is_handler_call (new_events past (fst (exec w past (Act h p f)))) = []
  /\ exec w past (with_returning_logger (Act h p f))
    = (past ++ [EvNuidNext (World_nuid w past);
                Act_request_event w past h p topic],
       Returned (false, Some err)).
Proof.
  intros Ht Herr.
  rewrite (Act_exec_topic w past h p f topic Ht).
  rewrite (Act_returning_topic w past h p f topic Ht).
  destruct (Act_answer w past h p topic) as [m e]. cbn [snd] in Herr. subst e.
  destruct m; cbv beta iota zeta; rewrite <- app_assoc; cbn [app fst];
    rewrite new_events_app; repeat split.
Qed.

Lemma request_failure_ends_the_process_witness :
  has_string_topic nobody_home "nobody.home"
  /\ snd (Act_answer silent_World [] example_Hemera nobody_home "nobody.home")
     = Some nats_ErrTimeout
  /\ snd (exec silent_World [] (Act example_Hemera nobody_home on_result))
     = Exited 1.
Proof.
  split; [reflexivity |]. split; [reflexivity |].
  exact (f_equal snd
           (proj1 (request_failure_ends_the_process silent_World [] example_Hemera
                     nobody_home on_result "nobody.home" nats_ErrTimeout
                     eq_refl eq_refl))).
Defined.

(** C3.  When the request is answered and the reply decodes without error,
    [Act] returns [(true, nil)] and invokes the caller's handler exactly
    once: with the envelope's error (a pointer to it) when the error field is
    populated, and with the envelope's result otherwise.  A populated error
    thus reaches the handler and never the [(ok, error)] pair. *)
Theorem Act_delivers_decoded_reply_once (w : World) (past : list event)
    (h : Hemera) (p : Pattern) (f : actHandler) (topic : string) (m : Msg)
    (pack : packet) :
  has_string_topic p topic ->
  Act_answer w past h p topic = (Some m, None) ->
  json_Unmarshal (Msg_Data m) packet_zero = (pack, None) ->
  exec w past (Act h p f)
    = (past ++ [EvNuidNext (World_nuid w past);
                Act_request_event w past h p topic;
                EvActHandler f (Act_delivery pack)],
       Returned (true, None))
  /\ filter is_handler_call (new_events past (fst (exec w past (Act h p f))))
     = [EvActHandler f (Act_delivery pack)]
  /\ (forall e, packet_Error pack = Some e -> Act_delivery pack = VErrorPtr e)
  /\ (packet_Error pack = None -> Act_delivery pack = packet_Result pack).
Proof.
  intros Ht Hans Hdec.
  rewrite (Act_exec_topic w past h p f topic Ht).
  rewrite Hans, Hdec. cbv beta iota zeta. rewrite <- app_assoc. cbn [app fst].
  rewrite new_events_app. unfold Act_delivery.
  repeat split.
  - intros e ->. reflexivity.
  - intros ->. reflexivity.
Qed.

Lemma Act_delivers_decoded_reply_once_witness :
  has_string_topic math_div "math.div"
  /\ json_Unmarshal error_reply packet_zero
     = (mkpacket None None None VNil trace_zero request_zero (Some DivByZero), None)
  /\ filter is_handler_call
       (fst (exec (example_World (Some (reply_Msg error_reply), None)) []
               (Act example_Hemera math_div on_result)))
     = [EvActHandler on_result (VErrorPtr DivByZero)]
  /\ snd (exec (example_World (Some (reply_Msg error_reply), None)) []
            (Act example_Hemera math_div on_result))
     = Returned (true, None).
Proof.
  split; [reflexivity |]. split; [reflexivity |].
  pose proof (Act_delivers_decoded_reply_once
                (example_World (Some (reply_Msg error_reply), None)) []
                example_Hemera math_div on_result "math.div"
                (reply_Msg error_reply)
                (mkpacket None None None VNil trace_zero request_zero (Some DivByZero))
                eq_refl eq_refl eq_refl) as [Hrun [Hcalls _]].
  split; [exact Hcalls | exact (f_equal snd Hrun)].
Defined.

(** C8 (the code departs from the claim).  When the request is answered but
    the reply bytes do not decode, [Act] does not return at all: it calls
    [log.Fatal], which ends the process with status 1, and the handler is not
    invoked.  The return written behind the fatal call names the transport
    call's error variable, which is nil on this path, and not the decoding
    error: with a logger that returns, the failure comes back as
    [(false, nil)], which is the pair the claim describes. *)
Theorem undecodable_reply_ends_the_process (w : World) (past : list event)
    (h : Hemera) (p : Pattern) (f : actHandler) (topic : string) (m : Msg)
    (mErr : error) :
  has_string_topic p topic ->
  Act_answer w past h p topic = (Some m, None) ->
  snd (json_Unmarshal (Msg_Data m) packet_zero) = Some mErr ->
  exec w past (Act h p f)
    = (past ++ [EvNuidNext (World_nuid w past);
                Act_request_event w past h p topic;
                EvLogFatal "Act response could not be unmarshalled"],
       Exited 1)
  /\ filter is_handler_call (new_events past (fst (exec w past (Act h p f)))) = []
  /\ exec w past (with_returning_logger (Act h p f))
    = (past ++ [EvNuidNext (World_nuid w past);
                Act_request_event w past h p topic],
       Returned (false, None)).
Proof.
  intros Ht Hans Hdec.
  rewrite (Act_exec_topic w past h p f topic Ht).
  rewrite (Act_returning_topic w past h p f topic Ht).
  rewrite Hans.
  destruct (json_Unmarshal (Msg_Data m) packet_zero) as [pack e].
  cbn [snd] in Hdec. subst e.
  cbv beta iota zeta. rewrite <- app_assoc. cbn [app fst].
  rewrite new_events_app. repeat split.
Qed.

Lemma undecodable_reply_ends_the_process_witness :
  has_string_topic math_div "math.div"
  /\ snd (json_Unmarshal garbage packet_zero) = Some SyntaxError
  /\ snd (exec (example_World (Some (reply_Msg garbage), None)) []
            (Act example_Hemera math_div on_result))
     = Exited 1
  /\ snd (exec (example_World (Some (reply_Msg garbage), None)) []
            (with_returning_logger (Act example_Hemera math_div on_result)))
     = Returned (false, None).
Proof.
  split; [reflexivity |]. split; [reflexivity |].
  pose proof (undecodable_reply_ends_the_process
                (example_World (Some (reply_Msg garbage), None)) []
                example_Hemera math_div on_result "math.div"
                (reply_Msg garbage) SyntaxError
                eq_refl eq_refl eq_refl) as [Hrun [_ Hret]].
  split; [exact (f_equal snd Hrun) | exact (f_equal snd Hret)].
Defined.

(* ================================================================= *)
(** ** The reply callback *)

Lemma marshal_packet_members (pk : packet) (doc : json) :
  marshal_packet pk = inl doc ->
  json_member "error" doc = marshal_Error_ptr (packet_Error pk)
  /\ marshal_value (packet_Result pk) = inl (json_member "result" doc).
Proof.
  unfold marshal_packet.
  destruct (marshal_map (packet_Pattern pk)); [| discriminate].
  destruct (marshal_map (packet_Meta pk)); [| discriminate].
  destruct (marshal_map (packet_Delegate pk)); [| discriminate].
  destruct (marshal_value (packet_Result pk)); [| discriminate].
  intros [= <-]. split; reflexivity.
Qed.

Lemma Reply_response_Error (p : Pattern) (id : string) (e : Error) :
  Reply_response p id (VError e)
  = mkpacket p None None VNil trace_zero (mkrequest id RequestType) (Some e).
Proof. reflexivity. Qed.

Lemma Reply_response_other (p : Pattern) (id : string) (payload : value) :
  (forall e, payload <> VError e) ->
  Reply_response p id payload
  = mkpacket p None None payload trace_zero (mkrequest id RequestType) None.
Proof.
  intros H. destruct payload; try reflexivity. exfalso. exact (H e eq_refl).
Qed.

Lemma Error_or_other (payload : value) :
  (exists e, payload = VError e) \/ (forall e, payload <> VError e).
Proof.
  destruct payload; try (right; intros e'; discriminate).
  left. eexists. reflexivity.
Qed.

(** C4.  The reply envelope built for a payload has at most one of result
    and error populated.  For a payload that is an [Error] the error field is
    set and the result stays nil; for any other payload the result is set and
    the error stays nil.  The same holds of the document that is encoded and
    published: its [error] member or its [result] member is null. *)
Theorem reply_envelope_never_has_both (p : Pattern) (id : string) (payload : value) :
  (forall e, payload = VError e ->
     packet_Error (Reply_response p id payload) = Some e
     /\ packet_Result (Reply_response p id payload) = VNil)
  /\ ((forall e, payload <> VError e) ->
     packet_Result (Reply_response p id payload) = payload
     /\ packet_Error (Reply_response p id payload) = None)
  /\ (packet_Error (Reply_response p id payload) = None
      \/ packet_Result (Reply_response p id payload) = VNil)
  /\ (forall doc, Reply_data p id payload = JSONText doc ->
        json_member "error" doc = JNull \/ json_member "result" doc = JNull)
  /\ (forall w past h m,
        filter is_transport
          (new_events past (fst (exec w past (Reply_call (mkReply h p m) payload))))
        = [EvPublish (Hemera_Conn h) (Msg_Reply m)
             (Reply_data p (World_nuid w past) payload)
             (World_Publish w (past ++ [EvNuidNext (World_nuid w past)])
                (Hemera_Conn h) (Msg_Reply m)
                (Reply_data p (World_nuid w past) payload))]).
Proof.
  split; [| split; [| split; [| split]]].
  - intros e ->. rewrite Reply_response_Error. split; reflexivity.
  - intros H. rewrite (Reply_response_other p id payload H). split; reflexivity.
  - destruct (Error_or_other payload) as [[e ->] | H].
    + right. reflexivity.
    + left. rewrite (Reply_response_other p id payload H). reflexivity.
  - intros doc. unfold Reply_data, json_Marshal.
    destruct (marshal_packet (Reply_response p id payload)) as [d | e] eqn:E;
      cbn [fst]; [| discriminate].
    intros [= <-]. destruct (marshal_packet_members _ _ E) as [Herr Hres].
    destruct (Error_or_other payload) as [[e ->] | H].
    + right. rewrite Reply_response_Error in Hres. cbn in Hres.
      injection Hres as Hres. symmetry. exact Hres.
    + left. rewrite Herr, (Reply_response_other p id payload H). reflexivity.
  - intros w past h m. rewrite Reply_call_exec.
    cbv beta iota zeta. cbn [fst Reply_h Reply_p Reply_m].
    rewrite new_events_app. reflexivity.
Qed.

(** C10.  The reply callback tells an error from a result by the dynamic
    type of the payload, which must be the struct type [Error] itself.  A
    pointer to an [Error], a map of whatever shape (the keys name, message
    and code included), a nil, or any other value goes to the result field
    and leaves the error field nil. *)
Theorem reply_error_is_told_by_exact_type (p : Pattern) (id : string) :
  (forall e,
     packet_Error (Reply_response p id (VError e)) = Some e
     /\ packet_Result (Reply_response p id (VError e)) = VNil)
  /\ (forall e,
     packet_Error (Reply_response p id (VErrorPtr e)) = None
     /\ packet_Result (Reply_response p id (VErrorPtr e)) = VErrorPtr e)
  /\ (forall m,
     packet_Error (Reply_response p id (VMap m)) = None
     /\ packet_Result (Reply_response p id (VMap m)) = VMap m)
  /\ (forall payload,
     packet_Error (Reply_response p id payload) <> None
     <-> exists e, payload = VError e)
  /\ (forall payload,
     (forall e, payload <> VError e) ->
     packet_Error (Reply_response p id payload) = None
     /\ packet_Result (Reply_response p id payload) = payload).
Proof.
  split; [| split; [| split; [| split]]].
  - intros e. split; reflexivity.
  - intros e. split; reflexivity.
  - intros m. split; reflexivity.
  - intros payload. split.
    + intros H. destruct (Error_or_other payload) as [Hex | Hno]; [exact Hex |].
      exfalso. apply H. rewrite (Reply_response_other p id payload Hno). reflexivity.
    + intros [e ->]. rewrite Reply_response_Error. discriminate.
  - intros payload H. rewrite (Reply_response_other p id payload H).
    split; reflexivity.
Qed.

(** C5.  For every message delivered to a responder, the handler receives a
    reply callback bound to that message and to the pattern given to [Add].
    Each call of it draws a new identifier from the generator, builds an
    envelope whose request header carries that identifier and the type
    [request] and whose pattern is the pattern given to [Add], and publishes
    the encoded envelope on the connection to the reply address of the
    inbound message.  The bytes of the inbound message, hence the identifier
    of its request header, play no part in the reply. *)
Theorem reply_carries_new_id_and_pattern (w : World) (past past' : list event)
    (h : Hemera) (p : Pattern) (handler : addHandler) (m : Msg) (payload : value) :
  (forall topic, has_string_topic p topic ->
     new_events past (fst (exec w past (Add h p handler)))
     = [EvQueueSubscribe (Hemera_Conn h) topic topic (mkMsgHandler h p handler)
          (World_QueueSubscribe w past (Hemera_Conn h) topic topic)])
  /\ new_events past
       (fst (exec w past (MsgHandler_call (mkMsgHandler h p handler) m)))
     = [EvAddHandler handler
          (packet_Pattern (fst (json_Unmarshal (Msg_Data m) packet_zero)))
          (mkReply h p m)]
  /\ exec w past' (Reply_call (mkReply h p m) payload)
     = (past' ++ [EvNuidNext (World_nuid w past');
                  EvPublish (Hemera_Conn h) (Msg_Reply m)
                    (Reply_data p (World_nuid w past') payload)
                    (World_Publish w (past' ++ [EvNuidNext (World_nuid w past')])
                       (Hemera_Conn h) (Msg_Reply m)
                       (Reply_data p (World_nuid w past') payload))],
        Returned tt)
  /\ packet_Request (Reply_response p (World_nuid w past') payload)
     = mkrequest (World_nuid w past') RequestType
  /\ packet_Pattern (Reply_response p (World_nuid w past') payload) = p
  /\ (forall data',
        Reply_call (mkReply h p (mkMsg (Msg_Subject m) (Msg_Reply m) data')) payload
        = Reply_call (mkReply h p m) payload).
Proof.
  split; [| split; [| split; [| split; [| split]]]].
  - intros topic Ht. rewrite (Add_exec_topic w past h p handler topic Ht).
    cbn [fst]. rewrite new_events_app. reflexivity.
  - rewrite MsgHandler_call_exec. cbn [fst]. rewrite new_events_app.
    reflexivity.
  - rewrite Reply_call_exec. reflexivity.
  - destruct (Error_or_other payload) as [[e ->] | H].
    + reflexivity.
    + rewrite (Reply_response_other p _ payload H). reflexivity.
  - destruct (Error_or_other payload) as [[e ->] | H].
    + reflexivity.
    + rewrite (Reply_response_other p _ payload H). reflexivity.
  - intros data'. destruct m as [subj rep data]. reflexivity.
Qed.

(* ================================================================= *)
(** ** Inbound bytes that do not decode *)

Lemma json_Unmarshal_raw (raw : string) (pack : packet) :
  json_Unmarshal (RawBytes raw) pack = (pack, Some SyntaxError).
Proof. reflexivity. Qed.

(** C6, as stated, fails: [ill_typed_request] does not decode as an envelope
    (a number stands where the request header is expected, and an error is
    returned), yet the pattern field is populated, not zero-valued, and the
    handler is invoked with that pattern. *)
Lemma ill_typed_request_is_partly_decoded :
  snd (json_Unmarshal ill_typed_request packet_zero)
    = Some (UnmarshalTypeError "number")
  /\ packet_Pattern (fst (json_Unmarshal ill_typed_request packet_zero))
    = Some [("topic", VString "math.div")]
  /\ fst (json_Unmarshal ill_typed_request packet_zero) <> packet_zero
  /\ exec silent_World []
       (MsgHandler_call (mkMsgHandler example_Hemera math_div on_add)
          (inbound_Msg ill_typed_request))
    = ([EvAddHandler on_add (Some [("topic", VString "math.div")])
          (mkReply example_Hemera math_div (inbound_Msg ill_typed_request))],
       Returned tt).
Proof.
  split; [reflexivity |]. split; [reflexivity |]. split; [| reflexivity].
  intros H. apply (f_equal packet_Pattern) in H. discriminate H.
Qed.

(** C6, amended.  For every inbound byte sequence that fails to decode as an
    envelope, the message is not rejected: the error of the decoder is
    dropped, the registered handler is still invoked, exactly once, with the
    pattern field of the envelope as the decoder left it, nothing is
    published, and the callback returns.  When the bytes are not well-formed
    JSON every field of the envelope is left zero-valued, so the handler
    receives the nil pattern. *)
Theorem undecodable_request_still_reaches_handler (w : World) (past : list event)
    (cb : MsgHandler) (m : Msg) (err : error) :
  snd (json_Unmarshal (Msg_Data m) packet_zero) = Some err ->
  exec w past (MsgHandler_call cb m)
    = (past ++ [EvAddHandler (MsgHandler_handler cb)
                  (packet_Pattern (fst (json_Unmarshal (Msg_Data m) packet_zero)))
                  (mkReply (MsgHandler_h cb) (MsgHandler_p cb) m)],
       Returned tt)
  /\ filter is_handler_call (new_events past (fst (exec w past (MsgHandler_call cb m))))
     = [EvAddHandler (MsgHandler_handler cb)
          (packet_Pattern (fst (json_Unmarshal (Msg_Data m) packet_zero)))
          (mkReply (MsgHandler_h cb) (MsgHandler_p cb) m)]
  /\ filter is_transport (new_events past (fst (exec w past (MsgHandler_call cb m))))
     = []
  /\ (forall raw, Msg_Data m = RawBytes raw ->
        fst (json_Unmarshal (Msg_Data m) packet_zero) = packet_zero
        /\ exec w past (MsgHandler_call cb m)
           = (past ++ [EvAddHandler (MsgHandler_handler cb) None
                         (mkReply (MsgHandler_h cb) (MsgHandler_p cb) m)],
              Returned tt)).
Proof.
  intros _. rewrite MsgHandler_call_exec. cbn [fst].
  rewrite new_events_app.
  split; [reflexivity |]. split; [reflexivity |]. split; [reflexivity |].
  intros raw Hraw. rewrite Hraw, json_Unmarshal_raw. split; reflexivity.
Qed.

Lemma undecodable_request_still_reaches_handler_witness :
  snd (json_Unmarshal garbage packet_zero) = Some SyntaxError
  /\ exec silent_World []
       (MsgHandler_call (mkMsgHandler example_Hemera math_div on_add)
          (inbound_Msg garbage))
     = ([EvAddHandler on_add None
           (mkReply example_Hemera math_div (inbound_Msg garbage))],
        Returned tt).
Proof.
  split; [reflexivity |].
  exact (proj1 (undecodable_request_still_reaches_handler silent_World []
                  (mkMsgHandler example_Hemera math_div on_add)
                  (inbound_Msg garbage) SyntaxError eq_refl)).
Defined.

(* ================================================================= *)
(** ** The timeout *)

(** Every request of [Act] carries [Act_timeout]. *)
Lemma Act_requests_carry_Act_timeout (w : World) (past : list event) (h : Hemera)
    (p : Pattern) (f : actHandler) (c : Conn) (subj : string) (data : bytes)
    (t : Duration) (m : option Msg) (e : option error) :
  In (EvRequest c subj data t m e) (new_events past (fst (exec w past (Act h p f)))) ->
  t = Act_timeout h.
Proof.
  destruct (topic_present_or_lacking p) as [[topic Ht] | Hl].
  - rewrite (Act_exec_topic w past h p f topic Ht). cbv beta zeta.
    assert (Hev : forall x,
               In (EvRequest c subj data t m e)
                 [EvNuidNext (World_nuid w past);
                  Act_request_event w past h p topic; x] ->
               (forall c' s' d' t' m' e', x <> EvRequest c' s' d' t' m' e') ->
               t = Act_timeout h).
    { intros x [H | [H | [H | []]]] Hx.
      - discriminate H.
      - unfold Act_request_event in H. injection H as _ _ _ Hout _ _.
        symmetry. exact Hout.
      - exfalso. exact (Hx _ _ _ _ _ _ H). }
    destruct (Act_answer w past h p topic) as [[msg|] [err|]].
    + rewrite <- app_assoc. cbn [fst app]. rewrite new_events_app.
      intros H. apply (Hev _ H). intros; discriminate.
    + destruct (json_Unmarshal (Msg_Data msg) packet_zero) as [pack [mErr|]];
        rewrite <- app_assoc; cbn [fst app]; rewrite new_events_app;
        intros H; apply (Hev _ H); intros; discriminate.
    + rewrite <- app_assoc. cbn [fst app]. rewrite new_events_app.
      intros H. apply (Hev _ H). intros; discriminate.
    + rewrite <- app_assoc. cbn [fst app]. rewrite new_events_app.
      intros H. apply (Hev _ H). intros; discriminate.
  - rewrite (Act_exec_lacking w past h p f Hl). cbn [fst].
    rewrite new_events_app. intros [H | []]. discriminate H.
Qed.

(** C7.  A Hemera built with no options has the timeout 2000, and every
    request of [Act] on it waits for 2000 milliseconds.  The option
    [Timeout t] replaces the default by [t], and [Act] then waits for the
    timeout it derives from [t]. *)
Theorem default_timeout_is_2000_ms (conn : Conn) :
  NewHemera conn [] = (mkHemera conn (mkOptions 2000), None)
  /\ Act_timeout (fst (NewHemera conn [])) = 2000 * time_Millisecond
  /\ (forall w past p f c subj data t m e,
        In (EvRequest c subj data t m e)
          (new_events past (fst (exec w past (Act (fst (NewHemera conn [])) p f)))) ->
        t = 2000 * time_Millisecond)
  /\ (forall t, NewHemera conn [Timeout t] = (mkHemera conn (mkOptions t), None))
  /\ (forall t0 w past p f c subj data t m e,
        In (EvRequest c subj data t m e)
          (new_events past
             (fst (exec w past (Act (fst (NewHemera conn [Timeout t0])) p f)))) ->
        t = Duration_mul t0 time_Millisecond).
Proof.
  split; [reflexivity |]. split; [reflexivity |]. split; [| split].
  - intros w past p f c subj data t m e H.
    apply Act_requests_carry_Act_timeout in H. exact H.
  - intros t. reflexivity.
  - intros t0 w past p f c subj data t m e H.
    apply Act_requests_carry_Act_timeout in H. exact H.
Qed.

Lemma Act_timeout_exact_iff (h : Hemera) :
  Act_timeout h = Options_Timeout (Hemera_Opts h) * 1000000
  <-> -9223372036854 <= Options_Timeout (Hemera_Opts h) <= 9223372036854.
Proof.
  unfold Act_timeout, Duration_mul.
  change time_Millisecond with 1000000.
  split.
  - intros H. pose proof (wrap_int64_range (Options_Timeout (Hemera_Opts h) * 1000000)) as R.
    rewrite H in R. unfold in_int64 in R. lia.
  - intros H. apply wrap_int64_small. unfold in_int64. lia.
Qed.

(** C9, as stated, fails: the product is an [int64] and wraps around.  With
    the timeout set to three hours the wait handed to the transport is
    negative, not three hours times 10^6. *)
Lemma three_hour_timeout_wraps :
  in_int64 (3 * time_Hour)
  /\ Act_timeout (fst (NewHemera None [Timeout (3 * time_Hour)]))
     = -7646744073709551616
  /\ Act_timeout (fst (NewHemera None [Timeout (3 * time_Hour)]))
     <> 3 * time_Hour * 10 ^ 6.
Proof.
  split; [unfold in_int64; cbv; split; [discriminate | reflexivity] |].
  split; [reflexivity |]. cbv. discriminate.
Qed.

(** C9, amended.  [Act] multiplies the configured timeout by
    [time.Millisecond] in [int64] arithmetic before it hands it to the
    transport: for every configured value [t] the wait is [t * 10^6]
    nanoseconds reduced into the [int64] range, and it is [t * 10^6] itself
    exactly when [t] lies between -9223372036854 and 9223372036854.  So the
    option value is read as a bare count of milliseconds, and a caller who
    passes a duration in that range, such as [2*time.Second], waits 10^6
    times longer than the duration says. *)
Theorem Act_timeout_is_a_million_times_the_option (h : Hemera) :
  Act_timeout h = wrap_int64 (Options_Timeout (Hemera_Opts h) * 10 ^ 6)
  /\ (Act_timeout h = Options_Timeout (Hemera_Opts h) * 10 ^ 6
      <-> -9223372036854 <= Options_Timeout (Hemera_Opts h) <= 9223372036854)
  /\ (forall w past p f c subj data t m e,
        In (EvRequest c subj data t m e)
          (new_events past (fst (exec w past (Act h p f)))) ->
        t = Act_timeout h).
Proof.
  split; [reflexivity |]. split.
  - change (10 ^ 6) with 1000000. apply Act_timeout_exact_iff.
  - intros w past p f c subj data t m e H.
    exact (Act_requests_carry_Act_timeout w past h p f c subj data t m e H).
Qed.

(** [Timeout(2*time.Second)]: the wait is two million seconds. *)
Example two_seconds_become_two_million :
  in_int64 (2 * time_Second)
  /\ Act_timeout (fst (NewHemera None [Timeout (2 * time_Second)]))
     = 2000000 * time_Second.
Proof.
  split; [unfold in_int64; cbv; split; [discriminate | reflexivity] | reflexivity].
Qed.

(* ================================================================= *)
(** ** Scenarios *)

(** The responder of [math.div] replies with [DivByZero]; the bytes it
    publishes, handed to the requester as the reply, make [Act] call the
    handler with that error and return [(true, nil)]. *)
Example scenario_remote_error :
  let published := Reply_data math_div "nuid-7" (VError DivByZero) in
  packet_Error (fst (json_Unmarshal published packet_zero)) = Some DivByZero
  /\ packet_Result (fst (json_Unmarshal published packet_zero)) = VNil
  /\ new_events []
       (fst (exec (example_World (Some (reply_Msg published), None)) []
               (Act example_Hemera math_div on_result)))
     = [EvNuidNext "nuid-0";
        EvRequest (Some 1%nat) "math.div" (Act_data math_div "nuid-0") 2000000000
          (Some (reply_Msg published)) None;
        EvActHandler on_result (VErrorPtr DivByZero)]
  /\ snd (exec (example_World (Some (reply_Msg published), None)) []
            (Act example_Hemera math_div on_result))
     = Returned (true, None).
Proof. cbv zeta. repeat split. Qed.

(** A map with the keys of an [Error] is a result, on both sides. *)
Example scenario_error_shaped_map :
  let payload := VMap [("name", VString "DivByZero"); ("message", VString "b=0");
                       ("code", VInt 400)] in
  let published := Reply_data math_div "nuid-7" payload in
  json_member "error" (match published with JSONText d => d | RawBytes _ => JNull end)
    = JNull
  /\ Act_delivery (fst (json_Unmarshal published packet_zero))
     = VMap [("code", VFloat64 "400"); ("message", VString "b=0");
             ("name", VString "DivByZero")].
Proof. cbv zeta. split; reflexivity. Qed.

(** The identifier of the reply is the one the generator hands out, not the
    one of the inbound request, and the pattern of the reply is the pattern
    given to [Add], not the one of the inbound request. *)
Example scenario_reply_header :
  let cb := mkMsgHandler example_Hemera (Some [("topic", VString "math.div")]) on_add in
  let m := inbound_Msg
             (JSONText (JObject
                [("pattern", JObject [("topic", JString "math.div");
                                      ("a", JNumber "1"); ("b", JNumber "0")]);
                 ("request", marshal_request (mkrequest "caller-7" RequestType))])) in
  let reply := mkReply (MsgHandler_h cb) (MsgHandler_p cb) m in
  exec silent_World [] (MsgHandler_call cb m)
    = ([EvAddHandler on_add
          (Some [("a", VFloat64 "1"); ("b", VFloat64 "0"); ("topic", VString "math.div")])
          reply],
       Returned tt)
  /\ (exists data,
        exec silent_World [EvAddHandler on_add (Some []) reply] (Reply_call reply (VInt 5))
        = ([EvAddHandler on_add (Some []) reply; EvNuidNext "nuid-1";
            EvPublish (Some 1%nat) "_INBOX.caller" (JSONText data) None],
           Returned tt)
        /\ json_member "request" data
           = marshal_request (mkrequest "nuid-1" RequestType)
        /\ json_member "pattern" data = JObject [("topic", JString "math.div")]
        /\ json_member "result" data = JNumber "5").
Proof.
  cbv zeta. split; [reflexivity |]. eexists. repeat split.
Qed.

(** No responder: the process of the requester exits. *)
Example scenario_nobody_home :
  exec silent_World [] (Act example_Hemera nobody_home on_result)
  = ([EvNuidNext "nuid-0";
      EvRequest (Some 1%nat) "nobody.home" (Act_data nobody_home "nuid-0")
        2000000000 None (Some nats_ErrTimeout);
      EvLogFatal "Act could not be executed"],
     Exited 1).
Proof. reflexivity. Qed.

(** Letter case of the member names does not matter to the decoder, and a
    wrong type under [error] still allocates the pointer. *)
Example scenario_decoder_corners :
  json_Unmarshal
    (JSONText (JObject [("Pattern", JObject [("topic", JString "t")]);
                        ("ERROR", JString "boom")]))
    packet_zero
  = (mkpacket (Some [("topic", VString "t")]) None None VNil trace_zero
       request_zero (Some Error_zero),
     Some (UnmarshalTypeError "string"))
  /\ json_Unmarshal
       (JSONText (JObject [("error", JObject [("code", JNumber "70000")])]))
       packet_zero
     = (mkpacket None None None VNil trace_zero request_zero (Some Error_zero),
        Some (UnmarshalTypeError "number 70000"))
  /\ json_Unmarshal (JSONText JNull) packet_zero = (packet_zero, None)
  /\ json_Unmarshal (JSONText (JArray [])) packet_zero
     = (packet_zero, Some (UnmarshalTypeError "array")).
Proof. repeat split. Qed.

(* ================================================================= *)
(** * Further properties *)

(** ** Construction *)

Lemma apply_options_app (pre rest : list Option) (o0 : Options) :
  apply_options (pre ++ rest) o0
  = match apply_options pre o0 with
    | (o, None) => apply_options rest o
    | (o, Some e) => (o, Some e)
    end.
Proof.
  revert o0. induction pre as [| opt pre IH]; intros o0; simpl.
  - reflexivity.
  - destruct (opt o0) as [o1 [e|]]; [reflexivity | apply IH].
Qed.

(** X1.  [NewHemera] applies the options from left to right and stops at the
    first one that returns an error: it returns that error with a Hemera that
    has no connection and the options as the failing option left them; the
    options after it are not applied. *)
Theorem NewHemera_stops_at_failing_option (conn : Conn) (pre post : list Option)
    (bad : Option) (o o' : Options) (e : error) :
  apply_options pre GetDefaultOptions = (o, None) ->
  bad o = (o', Some e) ->
  NewHemera conn (pre ++ bad :: post) = (mkHemera None o', Some e).
Proof.
  intros Hpre Hbad. unfold NewHemera. rewrite apply_options_app, Hpre.
  simpl. rewrite Hbad. reflexivity.
Qed.

Lemma NewHemera_stops_at_failing_option_witness :
  apply_options [Timeout 5] GetDefaultOptions = (mkOptions 5, None)
  /\ failing_Option (mkOptions 5) = (mkOptions 5, Some (ErrOption "bad option"))
  /\ NewHemera (Some 1%nat) ([Timeout 5] ++ failing_Option :: [Timeout 7])
     = (mkHemera None (mkOptions 5), Some (ErrOption "bad option")).
Proof.
  split; [reflexivity |]. split; [reflexivity |].
  exact (NewHemera_stops_at_failing_option (Some 1%nat) [Timeout 5] [Timeout 7]
           failing_Option (mkOptions 5) (mkOptions 5) (ErrOption "bad option")
           eq_refl eq_refl).
Defined.

Lemma last_cons_default {A : Type} (a : A) (l : list A) (d1 d2 : A) :
  last (a :: l) d1 = last (a :: l) d2.
Proof.
  revert a. induction l as [| b l IH]; intros a; [reflexivity |].
  change (last (b :: l) d1 = last (b :: l) d2). apply IH.
Qed.

Lemma apply_options_Timeouts (ts : list Duration) (o : Options) :
  apply_options (map Timeout ts) o = (mkOptions (last ts (Options_Timeout o)), None).
Proof.
  revert o. induction ts as [| t ts IH]; intros o.
  - destruct o. reflexivity.
  - cbn [map apply_options Timeout]. rewrite IH. cbn [Options_Timeout].
    destruct ts as [| t' ts]; [reflexivity |].
    rewrite (last_cons_default t' ts t (Options_Timeout o)). reflexivity.
Qed.

(** X2.  [Timeout] never fails, so a Hemera built from [Timeout] options only
    keeps its connection and returns no error; its timeout is the one of the
    last option, or the default 2000 when there is none, and that is what
    [Act] multiplies by [time.Millisecond]. *)
Theorem NewHemera_last_Timeout_wins (conn : Conn) (ts : list Duration) :
  NewHemera conn (map Timeout ts)
  = (mkHemera conn (mkOptions (last ts RequestTimeout)), None)
  /\ Act_timeout (fst (NewHemera conn (map Timeout ts)))
     = Duration_mul (last ts RequestTimeout) time_Millisecond.
Proof.
  unfold NewHemera. rewrite apply_options_Timeouts. split; reflexivity.
Qed.

(* ================================================================= *)
(** ** Outcomes of [Add] and [Act] *)

(** X3.  On a pattern with a string topic [Add] makes one call to the
    transport, a queue subscription whose subject and queue group are both
    the topic, invokes no handler, and returns [(true, nil)] whatever the
    subscription returned: an error of [QueueSubscribe] is dropped. *)
Theorem Add_reports_success_whatever_the_transport_says (w : World)
    (past : list event) (h : Hemera) (p : Pattern) (f : addHandler) (topic : string) :
  has_string_topic p topic ->
  snd (exec w past (Add h p f)) = Returned (true, None)
  /\ filter is_transport (new_events past (fst (exec w past (Add h p f))))
     = [EvQueueSubscribe (Hemera_Conn h) topic topic (mkMsgHandler h p f)
          (World_QueueSubscribe w past (Hemera_Conn h) topic topic)]
  /\ filter is_handler_call (new_events past (fst (exec w past (Add h p f)))) = [].
Proof.
  intros Ht. rewrite (Add_exec_topic w past h p f topic Ht). cbn [fst snd].
  rewrite new_events_app. repeat split.
Qed.

Lemma Add_reports_success_whatever_the_transport_says_witness :
  has_string_topic math_div "math.div"
  /\ snd (exec closed_World [] (Add example_Hemera math_div on_add))
     = Returned (true, None)
  /\ filter is_transport
       (fst (exec closed_World [] (Add example_Hemera math_div on_add)))
     = [EvQueueSubscribe (Some 1%nat) "math.div" "math.div"
          (mkMsgHandler example_Hemera math_div on_add)
          (Some nats_ErrConnectionClosed)].
Proof.
  split; [reflexivity |]. split.
  - exact (proj1 (Add_reports_success_whatever_the_transport_says closed_World []
                    example_Hemera math_div on_add "math.div" eq_refl)).
  - exact (proj1 (proj2 (Add_reports_success_whatever_the_transport_says
                           closed_World [] example_Hemera math_div on_add
                           "math.div" eq_refl))).
Defined.

(** X4.  Every run of [Act] ends in one of two ways.  Either it returns
    [(true, nil)], after exactly one call of the handler; or the process
    exits with status 1 or the goroutine panics, and the handler was not
    called.  [Act] never returns [ok=false]. *)
Theorem Act_outcomes (w : World) (past : list event) (h : Hemera) (p : Pattern)
    (f : actHandler) :
  (snd (exec w past (Act h p f)) = Returned (true, None)
   /\ exists x,
        filter is_handler_call (new_events past (fst (exec w past (Act h p f))))
        = [EvActHandler f x])
  \/ ((snd (exec w past (Act h p f)) = Exited 1
       \/ snd (exec w past (Act h p f)) = Panicked)
      /\ filter is_handler_call (new_events past (fst (exec w past (Act h p f)))) = []).
Proof.
  destruct (topic_present_or_lacking p) as [[topic Ht] | Hl].
  - rewrite (Act_exec_topic w past h p f topic Ht). cbv beta zeta.
    destruct (Act_answer w past h p topic) as [[m|] [err|]].
    + right. rewrite <- app_assoc. cbn [fst snd app]. rewrite new_events_app.
      split; [left; reflexivity | reflexivity].
    + destruct (json_Unmarshal (Msg_Data m) packet_zero) as [pack [mErr|]];
        rewrite <- app_assoc; cbn [fst snd app]; rewrite new_events_app.
      * right. split; [left; reflexivity | reflexivity].
      * left. split; [reflexivity | eexists; reflexivity].
    + right. rewrite <- app_assoc. cbn [fst snd app]. rewrite new_events_app.
      split; [left; reflexivity | reflexivity].
    + right. rewrite <- app_assoc. cbn [fst snd app]. rewrite new_events_app.
      split; [right; reflexivity | reflexivity].
  - right. rewrite (Act_exec_lacking w past h p f Hl). cbn [fst snd].
    rewrite new_events_app. split; [left; reflexivity | reflexivity].
Qed.

(* ================================================================= *)
(** ** Decimal literals *)











(* ================================================================= *)
(** ** Encoding and decoding of values *)















(* ================================================================= *)
(** ** Round trip of the envelope *)











(* ================================================================= *)
(** ** From the responder to the requester and back *)






Lemma marshal_failure_is_nil (pk : packet) (e : error) :
  marshal_packet pk = inr e -> json_Marshal pk = (nil_bytes, Some e).
Proof. unfold json_Marshal. intros ->. reflexivity. Qed.

(** X9.  A payload that [json.Marshal] refuses makes the reply callback publish
    an empty message; [Act], given that message as the answer, ends the
    process of the requester. *)
Theorem unserialisable_reply_ends_the_requester (w : World) (past : list event)
    (h : Hemera) (p2 : Pattern) (f : actHandler) (topic : string) (m : Msg)
    (p : Pattern) (id : string) (payload : value) (err : error) :
  has_string_topic p2 topic ->
  Act_answer w past h p2 topic = (Some m, None) ->
  Msg_Data m = Reply_data p id payload ->
  marshal_value payload = inr err ->
  Reply_data p id payload = nil_bytes
  /\ exec w past (Act h p2 f)
     = (past ++ [EvNuidNext (World_nuid w past);
                 Act_request_event w past h p2 topic;
                 EvLogFatal "Act response could not be unmarshalled"],
        Exited 1).
Proof.
  intros Ht Hans Hdata Hv.
  assert (Hnil : Reply_data p id payload = nil_bytes).
  { unfold Reply_data, json_Marshal.
    assert (Hno : forall e, payload <> VError e)
      by (intros e ->; discriminate Hv).
    rewrite (Reply_response_other p id payload Hno). unfold marshal_packet.
    cbn [packet_Pattern packet_Meta packet_Delegate packet_Result marshal_map].
    destruct (marshal_map p); [rewrite Hv |]; reflexivity. }
  split; [exact Hnil |].
  rewrite (Act_exec_topic w past h p2 f topic Ht), Hans, Hdata, Hnil.
  cbv beta iota zeta. cbn [json_Unmarshal nil_bytes].
  rewrite <- app_assoc. reflexivity.
Qed.

Lemma unserialisable_reply_ends_the_requester_witness :
  has_string_topic math_div "math.div"
  /\ marshal_value (VFunc "func()") = inr (UnsupportedTypeError "func()")
  /\ Reply_data math_div "nuid-9" (VFunc "func()") = nil_bytes
  /\ snd (exec (example_World (Some (reply_Msg nil_bytes), None)) []
            (Act example_Hemera math_div on_result))
     = Exited 1.
Proof.
  split; [reflexivity |]. split; [reflexivity |].
  pose proof (unserialisable_reply_ends_the_requester
                (example_World (Some (reply_Msg nil_bytes), None)) []
                example_Hemera math_div on_result "math.div"
                (reply_Msg nil_bytes) math_div "nuid-9" (VFunc "func()")
                (UnsupportedTypeError "func()")
                eq_refl eq_refl eq_refl eq_refl) as [Hnil Hrun].
  split; [exact Hnil | exact (f_equal snd Hrun)].
Defined.

(* ================================================================= *)
(** ** The byte order of keys *)






(** ** Maps kept in key order *)











(* ================================================================= *)
(** ** From the requester to the responder *)




(** X11.  A pattern that [json.Marshal] refuses is not reported by [Act]: the
    request goes out all the same, with no bytes, and a responder that
    receives it invokes its handler with the nil pattern. *)
Theorem unserialisable_pattern_is_sent_empty (w : World) (past past' : list event)
    (h : Hemera) (p : Pattern) (f : actHandler) (topic : string) (err : error)
    (cb : MsgHandler) (m : Msg) :
  has_string_topic p topic ->
  marshal_map p = inr err ->
  Msg_Data m = Act_data p (World_nuid w past) ->
  filter is_transport (new_events past (fst (exec w past (Act h p f))))
    = [EvRequest (Hemera_Conn h) topic nil_bytes (Act_timeout h)
         (fst (Act_answer w past h p topic)) (snd (Act_answer w past h p topic))]
  /\ exec w past' (MsgHandler_call cb m)
     = (past' ++ [EvAddHandler (MsgHandler_handler cb) None
                    (mkReply (MsgHandler_h cb) (MsgHandler_p cb) m)],
        Returned tt).
Proof.
  intros Ht E Hdata.
  assert (Hnil : forall id, Act_data p id = nil_bytes).
  { intros id. unfold Act_data, json_Marshal, marshal_packet, Act_request.
    cbn [packet_Pattern]. rewrite E. reflexivity. }
  split.
  - rewrite (Act_exec_topic w past h p f topic Ht). cbv beta zeta.
    assert (Hev : Act_request_event w past h p topic
                  = EvRequest (Hemera_Conn h) topic nil_bytes (Act_timeout h)
                      (fst (Act_answer w past h p topic))
                      (snd (Act_answer w past h p topic))).
    { unfold Act_request_event. rewrite Hnil. reflexivity. }
    rewrite Hev.
    destruct (Act_answer w past h p topic) as [[msg |] [e |]];
      try (destruct (json_Unmarshal (Msg_Data msg) packet_zero) as [pack [mErr |]]);
      rewrite <- app_assoc; cbn [fst app]; rewrite new_events_app; reflexivity.
  - rewrite MsgHandler_call_exec, Hdata, Hnil. reflexivity.
Qed.

Lemma unserialisable_pattern_is_sent_empty_witness :
  has_string_topic (Some [("topic", VString "math.div"); ("cb", VFunc "func()")])
    "math.div"
  /\ marshal_map (Some [("topic", VString "math.div"); ("cb", VFunc "func()")])
     = inr (UnsupportedTypeError "func()")
  /\ filter is_transport
       (fst (exec silent_World []
               (Act example_Hemera
                  (Some [("topic", VString "math.div"); ("cb", VFunc "func()")])
                  on_result)))
     = [EvRequest (Some 1%nat) "math.div" nil_bytes 2000000000 None
          (Some nats_ErrTimeout)].
Proof.
  split; [reflexivity |]. split; [reflexivity |].
  exact (proj1 (unserialisable_pattern_is_sent_empty silent_World [] []
                  example_Hemera
                  (Some [("topic", VString "math.div"); ("cb", VFunc "func()")])
                  on_result "math.div" (UnsupportedTypeError "func()")
                  (mkMsgHandler example_Hemera nobody_home on_add)
                  (inbound_Msg nil_bytes) eq_refl eq_refl eq_refl)).
Defined.

(* ================================================================= *)
(** ** Sequences of calls *)

(** Running [m] and then [f]: the run of [f] starts where the run of [m]
    returned, and does not start when [m] ended the process or panicked. *)
Lemma exec_bind {A B : Type} (w : World) (m : prog A) (f : A -> prog B)
    (past : list event) :
  exec w past (bind m f)
  = match exec w past m with
    | (tr, Returned a) => exec w tr (f a)
    | (tr, Exited s) => (tr, Exited s)
    | (tr, Panicked) => (tr, Panicked)
    end.
Proof.
  revert past.
  induction m as [a | msg | msg k IH | k IH | c subj queue cb k IH
                  | c subj data k IH | c subj data t k IH | g p reply k IH
                  | g res k IH];
    intros past; cbn [bind exec]; try reflexivity; apply IH.
Qed.

(** X12.  The reply callback is not spent by a call: called twice, it draws two
    identifiers and publishes two envelopes to the same reply address. *)
Theorem reply_callback_can_be_called_again (w : World) (past : list event)
    (reply : Reply) (v1 v2 : value) :
  exec w past (Reply_call reply v1 ;; Reply_call reply v2)
  = let c := Hemera_Conn (Reply_h reply) in
    let to := Msg_Reply (Reply_m reply) in
    let id1 := World_nuid w past in
    let data1 := Reply_data (Reply_p reply) id1 v1 in
    let sent1 := past ++ [EvNuidNext id1;
                          EvPublish c to data1
                            (World_Publish w (past ++ [EvNuidNext id1]) c to data1)] in
    let id2 := World_nuid w sent1 in
    let data2 := Reply_data (Reply_p reply) id2 v2 in
    (sent1 ++ [EvNuidNext id2;
               EvPublish c to data2
                 (World_Publish w (sent1 ++ [EvNuidNext id2]) c to data2)],
     Returned tt).
Proof.
  rewrite exec_bind, Reply_call_exec. cbv beta iota zeta.
  rewrite Reply_call_exec. reflexivity.
Qed.

(** X5.  On a pattern with a topic, [Act] makes one call to the transport on
    every path, those that end the process included: a request on the topic,
    with the encoded envelope and the timeout of the instance.  It never
    subscribes and never publishes. *)
Theorem Act_sends_one_request (w : World) (past : list event) (h : Hemera)
    (p : Pattern) (f : actHandler) (topic : string) :
  has_string_topic p topic ->
  filter is_transport (new_events past (fst (exec w past (Act h p f))))
  = [EvRequest (Hemera_Conn h) topic (Act_data p (World_nuid w past))
       (Act_timeout h)
       (fst (Act_answer w past h p topic)) (snd (Act_answer w past h p topic))]
  /\ hd_error (new_events past (fst (exec w past (Act h p f))))
     = Some (EvNuidNext (World_nuid w past)).
Proof.
  intros Ht. rewrite (Act_exec_topic w past h p f topic Ht). cbv beta zeta.
  change (Act_request_event w past h p topic)
    with (EvRequest (Hemera_Conn h) topic (Act_data p (World_nuid w past))
            (Act_timeout h)
            (fst (Act_answer w past h p topic)) (snd (Act_answer w past h p topic))).
  destruct (Act_answer w past h p topic) as [[msg |] [e |]];
    try (destruct (json_Unmarshal (Msg_Data msg) packet_zero) as [pack [mErr |]]);
    rewrite <- app_assoc; cbn [fst app]; rewrite new_events_app; split; reflexivity.
Qed.

Lemma Act_sends_one_request_witness :
  has_string_topic nobody_home "nobody.home"
  /\ filter is_transport
       (fst (exec closed_World [] (Act example_Hemera nobody_home on_result)))
     = [EvRequest (Some 1%nat) "nobody.home" (Act_data nobody_home "nuid-0")
          2000000000 None (Some nats_ErrConnectionClosed)].
Proof.
  split; [reflexivity |].
  exact (proj1 (Act_sends_one_request closed_World [] example_Hemera nobody_home
                  on_result "nobody.home" eq_refl)).
Defined.
